(** * Quote API: the quote repository and the delete-quote service

    A shallow embedding of [QuoteRepository] (filters, lookups, writes)
    and of [DeleteQuoteService.handle], with the properties the
    specification states about them.

    Conventions.
    - A JavaScript string is a [string]: each [ascii] stands for one code
      unit below 256.  The splitting of the search text is also given on
      lists of 16-bit code units ([units]).
    - A JavaScript [number] that holds an id, a length or a Unix time is
      an integer of [Z].
    - [T | undefined | null] is [Nullable T].
    - The query builder is a mutable object in the source; here every
      builder call is a function from the query to the extended query.
    - An [async] method is modelled by its result once every awaited
      promise has settled; a thrown error (rejected promise) is [Throw].
      A call whose promise is not awaited leaves its effect in [pending],
      and [settle] is the world once what is pending has been done. *)

From Stdlib Require Import ZArith List String Ascii Bool Lia Permutation Sorted.
Import ListNotations.
Open Scope string_scope.
Open Scope Z_scope.

(** ** JavaScript values *)

Inductive Nullable (A : Type) : Type :=
| Undefined : Nullable A
| Null : Nullable A
| Val : A -> Nullable A.
Arguments Undefined {A}.
Arguments Null {A}.
Arguments Val {A} _.

(** [x ?? d] *)
Definition nullish {A : Type} (x : Nullable A) (d : A) : A :=
  match x with
  | Val a => a
  | _ => d
  end.

(** An option bag field with a destructuring default:
    [const { flag = d } = options]; only [undefined] takes the default. *)
Definition withDefault {A : Type} (x : option A) (d : A) : A :=
  match x with
  | Some a => a
  | None => d
  end.

(** ** Strings *)

(** [s.includes(c)] for a one-character needle. *)
Fixpoint includes (s : string) (c : ascii) : bool :=
  match s with
  | EmptyString => false
  | String a r => if Ascii.eqb a c then true else includes r c
  end.

(** [s.split(c)] for a one-character separator: never empty, the empty
    string gives one empty piece. *)
Fixpoint split (s : string) (sep : ascii) : list string :=
  match s with
  | EmptyString => [EmptyString]
  | String a r =>
      if Ascii.eqb a sep then EmptyString :: split r sep
      else match split r sep with
           | [] => [String a EmptyString]
           | t :: ts => String a t :: ts
           end
  end.

(** [xs.join(sep)] *)
Fixpoint join (xs : list string) (sep : string) : string :=
  match xs with
  | [] => EmptyString
  | [x] => x
  | x :: r => x ++ sep ++ join r sep
  end.

(** The characters the class [[\s,;]] matches, among code units below
    256: tab, line feed, vertical tab, form feed, carriage return, space,
    no-break space, comma and semicolon. *)
Definition isSeparator (c : ascii) : bool :=
  let n := N_of_ascii c in
  ((9 <=? n) && (n <=? 13))%N || (n =? 32)%N || (n =? 160)%N
  || (n =? 44)%N || (n =? 59)%N.

(** [s.split(/[\s,;]+/)], by the language's split algorithm: the pattern
    is tried at each position, a match consumes the whole run of
    separators, the text before it is a piece, and what is left after the
    last match is the last piece.  [inRun] says that the character before
    was consumed by a match. *)
Fixpoint splitRuns (inRun : bool) (s : string) : list string :=
  match s with
  | EmptyString => [EmptyString]
  | String a r =>
      if isSeparator a then
        if inRun then splitRuns true r else EmptyString :: splitRuns true r
      else match splitRuns false r with
           | [] => [String a EmptyString]
           | t :: ts => String a t :: ts
           end
  end.

Definition splitSeparators (s : string) : list string := splitRuns false s.

(** ** Data model *)

Record Quote : Type := mkQuote {
  id : Z;
  content : string;
  author_id : Z;
  created_at : Z;
  updated_at : Z
}.

Record Author : Type := mkAuthor {
  author_key : Z;
  author_name : string;
  author_slug : string
}.

(** A row of the [tags] table of the migration: [id] and [name]. *)
Record Tag : Type := mkTag {
  tag_key : Z;
  tag_name : string
}.

(** The tables; [quote_tag] is the join table of the many-to-many
    relation, a row is (quote id, tag id). *)
Record Database : Type := mkDatabase {
  quotes : list Quote;
  authors : list Author;
  tags : list Tag;
  quote_tag : list (Z * Z)
}.

(** ** The query builder *)

Inductive Direction : Type := GE | LE.

(** A clause of the builder a [whereHas] callback receives. *)
Inductive SubClause : Type :=
| SubWhere (column value : string)
| SubOrWhere (column value : string).

Inductive Clause : Type :=
| WhereLength (direction : Direction) (length : Z)
| WhereHas (relation : string) (callback : list SubClause)
| WhereRaw (sql : string)
| WhereId (key : Z)
| WhereInId (keys : list Z)
| WhereInContent (contents : list string).

Inductive Client : Type :=
| DefaultConnection
| Transaction (handle : nat).

Definition clientOf (transaction : option nat) : Client :=
  match transaction with
  | Some t => Transaction t
  | None => DefaultConnection
  end.

Record Query : Type := mkQuery {
  client : Client;
  wheres : list Clause;
  basicRelationships : bool
}.

(** [Quote.query({ client: transaction })] *)
Definition newQuery (transaction : option nat) : Query :=
  mkQuery (clientOf transaction) [] false.

Definition addWhere (q : Query) (c : Clause) : Query :=
  mkQuery (client q) (wheres q ++ [c]) (basicRelationships q).

Definition withScopes (q : Query) : Query :=
  mkQuery (client q) (wheres q) true.

(** *** The filters of the repository *)

Definition filterLength (query : Query) (length : Nullable Z)
  (direction : Direction) : Query :=
  match length with
  | Val n => addWhere query (WhereLength direction n)
  | _ => query
  end.

Definition filterAuthor (query : Query) (author : Nullable string) : Query :=
  match author with
  | Val a =>
      addWhere query (WhereHas "author" [SubWhere "name" a; SubOrWhere "slug" a])
  | _ => query
  end.

Definition filterTags (query : Query) (tags : Nullable string) : Query :=
  match tags with
  | Val s =>
      if includes s "|" then
        let tagsList := split s "|" in
        addWhere query (WhereHas "tags" (map (SubOrWhere "name") tagsList))
      else
        let tagsList := split s "," in
        fold_left
          (fun q tag => addWhere q (WhereHas "tags" [SubWhere "name" tag]))
          tagsList query
  | _ => query
  end.

Definition keywordsOf (search : string) : string :=
  join (map (fun w => w ++ "*") (splitSeparators search)) ",".

Definition matchAgainst (keywords : string) : string :=
  "MATCH (content) AGAINST('" ++ keywords ++ "' IN BOOLEAN MODE)".

Definition queryContent (query : Query) (search : Nullable string) : Query :=
  match search with
  | Val s => addWhere query (WhereRaw (matchAgainst (keywordsOf s)))
  | _ => query
  end.

(** ** Running a query *)

(** [LENGTH(content)]: the number of bytes of the stored text. *)
Definition sqlLength (s : string) : Z := Z.of_nat (String.length s).

(** [column = value] on a text column, as a binary comparison. *)
Definition sqlEq (a b : string) : bool := String.eqb a b.

Definition tagColumn (t : Tag) (column : string) : option string :=
  if String.eqb column "name" then Some (tag_name t) else None.

Definition authorColumn (a : Author) (column : string) : option string :=
  if String.eqb column "name" then Some (author_name a)
  else if String.eqb column "slug" then Some (author_slug a)
  else None.

Definition testColumn (row : string -> option string) (column value : string)
  : bool :=
  match row column with
  | Some v => sqlEq v value
  | None => false
  end.

(** The clauses of a callback, read as SQL reads them: [AND] binds
    tighter than [OR]; [cur] is the value of the conjunction being read. *)
Fixpoint evalGroups (row : string -> option string) (cur : bool)
  (cs : list SubClause) : bool :=
  match cs with
  | [] => cur
  | SubWhere c v :: r => evalGroups row (cur && testColumn row c v) r
  | SubOrWhere c v :: r => cur || evalGroups row (testColumn row c v) r
  end.

(** The connective of the first clause has nothing to connect to. *)
Definition evalCallback (row : string -> option string) (cs : list SubClause)
  : bool :=
  match cs with
  | [] => true
  | SubWhere c v :: r => evalGroups row (testColumn row c v) r
  | SubOrWhere c v :: r => evalGroups row (testColumn row c v) r
  end.

Definition relatedTags (db : Database) (q : Quote) : list Tag :=
  filter
    (fun t =>
       existsb (fun p => (fst p =? id q) && (snd p =? tag_key t)) (quote_tag db))
    (tags db).

Definition relatedAuthor (db : Database) (q : Quote) : list Author :=
  filter (fun a => author_key a =? author_id q) (authors db).

Definition evalLength (direction : Direction) (n : Z) (q : Quote) : bool :=
  match direction with
  | GE => n <=? sqlLength (content q)
  | LE => sqlLength (content q) <=? n
  end.

Section Evaluation.

(** How the database engine decides a raw SQL predicate on a row; the
    full-text [MATCH ... AGAINST] is evaluated there. *)
Variable rawMatches : string -> Quote -> bool.

Definition evalClause (db : Database) (q : Quote) (c : Clause) : bool :=
  match c with
  | WhereLength d n => evalLength d n q
  | WhereHas relation cs =>
      if String.eqb relation "tags" then
        existsb (fun t => evalCallback (tagColumn t) cs) (relatedTags db q)
      else if String.eqb relation "author" then
        existsb (fun a => evalCallback (authorColumn a) cs) (relatedAuthor db q)
      else false
  | WhereRaw sql => rawMatches sql q
  | WhereId k => id q =? k
  | WhereInId ks => existsb (Z.eqb (id q)) ks
  | WhereInContent cs => existsb (String.eqb (content q)) cs
  end.

Definition matches (db : Database) (query : Query) (q : Quote) : bool :=
  forallb (evalClause db q) (wheres query).

Definition runQuery (db : Database) (query : Query) : list Quote :=
  filter (matches db query) (quotes db).

End Evaluation.

(** ** What the filters are meant to select *)

(** The quote is associated with a tag of that name. *)
Definition hasTag (db : Database) (q : Quote) (name : string) : Prop :=
  exists t, In t (tags db) /\ In (id q, tag_key t) (quote_tag db)
            /\ tag_name t = name.





(** ** The search text as 16-bit code units *)











(** ** Sorting in process memory *)

Inductive OrderEnum : Type := ASC | DESC.

(** What [a[input.sortBy]] can be at run time. *)
Inductive JSValue : Type :=
| VDateTime (unix : Z)
| VString (s : string)
| VNumber (n : Z)
| VOther.

(** Modelled from the spec: the properties of the [Quote] model, whose
    class is not among the sources; any other key reads a value that is
    neither a date, a string nor a number. *)
Definition property (q : Quote) (key : string) : JSValue :=
  if String.eqb key "id" then VNumber (id q)
  else if String.eqb key "content" then VString (content q)
  else if String.eqb key "author_id" then VNumber (author_id q)
  else if String.eqb key "created_at" then VDateTime (created_at q)
  else if String.eqb key "updated_at" then VDateTime (updated_at q)
  else VOther.

(** The comparison before the direction is applied. *)
Definition comparison (localeCompare : string -> string -> Z)
  (first second : JSValue) : Z :=
  match first, second with
  | VDateTime x, VDateTime y => x - y
  | VString x, VString y => localeCompare x y
  | VNumber x, VNumber y => x - y
  | _, _ => 0
  end.

(** The callback given to [quotes.sort]. *)
Definition comparator (localeCompare : string -> string -> Z)
  (sortBy : string) (order : OrderEnum) (a b : Quote) : Z :=
  let c := comparison localeCompare (property a sortBy) (property b sortBy) in
  match order with
  | ASC => c
  | DESC => - c
  end.

(** [Array.prototype.sort] is a stable sort: [x], which stood before every
    element of [l], goes before the first element it does not exceed. *)
Fixpoint insertSorted {A : Type} (cmp : A -> A -> Z) (x : A) (l : list A)
  : list A :=
  match l with
  | [] => [x]
  | h :: t => if cmp x h <=? 0 then x :: l else h :: insertSorted cmp x t
  end.

Definition sort {A : Type} (cmp : A -> A -> Z) (l : list A) : list A :=
  fold_right (insertSorted cmp) [] l.

(** [x] may stand before [y]: the comparator does not put [y] first. *)
Definition notAfter {A : Type} (cmp : A -> A -> Z) (x y : A) : Prop :=
  cmp x y <= 0.

(** Two values in the requested direction. *)
Definition ordered (order : OrderEnum) (x y : Z) : Prop :=
  match order with
  | ASC => x <= y
  | DESC => y <= x
  end.

(** Modelled from the spec: the keys under which a quote of the data
    model holds a date, a string or a number, those of [property]; under
    these the callback finds two values of one kind it compares. *)
Definition sortable (key : string) : bool :=
  existsb (String.eqb key)
    ["id"; "content"; "author_id"; "created_at"; "updated_at"].

(** Two values of one comparable kind, the first no later than the
    second in the requested direction: dates by their unix time, numbers
    by their value, strings by the collation. *)
Definition precedes (localeCompare : string -> string -> Z)
  (order : OrderEnum) (first second : JSValue) : Prop :=
  match first, second with
  | VDateTime x, VDateTime y => ordered order x y
  | VNumber x, VNumber y => ordered order x y
  | VString x, VString y => ordered order (localeCompare x y) 0
  | _, _ => False
  end.

(** A list sorted by one field: every row precedes all the rows after
    it. *)
Definition sortedByField (localeCompare : string -> string -> Z)
  (key : string) (order : OrderEnum) (rows : list Quote) : Prop :=
  StronglySorted
    (fun a b => precedes localeCompare order (property a key) (property b key))
    rows.

(** What is asked of the collation behind [localeCompare]: the sign
    flips when the arguments are swapped, and "not after" is transitive. *)
Definition consistentComparator {A : Type} (cmp : A -> A -> Z) : Prop :=
  (forall x y, Z.sgn (cmp x y) = - Z.sgn (cmp y x))
  /\ (forall x y z, cmp x y <= 0 -> cmp y z <= 0 -> cmp x z <= 0).

(** A collation to run examples with: the order of the code units. *)
Definition codeUnitCompare (x y : string) : Z :=
  match String.compare x y with
  | Lt => -1
  | Eq => 0
  | Gt => 1
  end.

(** ** Errors and effects *)

Inductive Error : Type :=
| E_ROW_NOT_FOUND
| TypeError
| DatabaseError (message : string).

Inductive Result (A : Type) : Type :=
| Return : A -> Result A
| Throw : Error -> Result A.
Arguments Return {A} _.
Arguments Throw {A} _.

Record NewQuoteSchema : Type := mkNewQuote {
  new_content : string;
  new_author_id : Z
}.

(** A statement sent to the database, with the client it goes through. *)
Inductive Statement : Type :=
| Select (query : Query)
| SelectRandom (query : Query) (limit : nat)
| InsertBatch (via : Client) (table : string) (rows : list NewQuoteSchema)
| SaveRow (via : Client) (row : Quote)
| DeleteRow (via : Client) (key : Z)
| DetachAll (via : Client) (relation : string) (key : Z).

Inductive Event : Type :=
| BeginGlobalTransaction
| CommitGlobalTransaction
| RollbackGlobalTransaction
| Executed (s : Statement).

(** What a call whose promise is not awaited leaves to be done after
    the caller has gone on. *)
Inductive Deferred : Type :=
| DeferredStatement (s : Statement)
| DeferredCommit
| DeferredRollback.

(** The database with its ambient transaction: [savepoint] holds the
    tables as they were when the global transaction began, for as long
    as that transaction is registered; [journal] is what was called or
    sent, oldest first; [pending] is what has been asked for without
    being awaited and has not happened yet, oldest first. *)
Record World : Type := mkWorld {
  database : Database;
  savepoint : option Database;
  journal : list Event;
  nextId : Z;
  clock : Z;
  seed : nat;
  pending : list Deferred
}.

Definition M (A : Type) : Type := World -> Result A * World.

Definition ret {A : Type} (a : A) : M A := fun w => (Return a, w).

Definition throw {A : Type} (e : Error) : M A := fun w => (Throw e, w).

Definition bind {A B : Type} (m : M A) (k : A -> M B) : M B :=
  fun w =>
    match m w with
    | (Return a, w') => k a w'
    | (Throw e, w') => (Throw e, w')
    end.

Notation "x <- m ;; k" := (bind m (fun x => k))
  (at level 61, m at next level, right associativity).
Notation "m ;;; k" := (bind m (fun _ => k))
  (at level 61, right associativity).

Definition record (e : Event) (w : World) : World :=
  mkWorld (database w) (savepoint w) (journal w ++ [e]) (nextId w) (clock w)
    (seed w) (pending w).

Definition setDatabase (db : Database) (w : World) : World :=
  mkWorld db (savepoint w) (journal w) (nextId w) (clock w) (seed w)
    (pending w).

Definition defer (d : Deferred) (w : World) : World :=
  mkWorld (database w) (savepoint w) (journal w) (nextId w) (clock w)
    (seed w) (pending w ++ [d]).

Definition setQuotes (qs : list Quote) (db : Database) : Database :=
  mkDatabase qs (authors db) (tags db) (quote_tag db).

(** *** The global transaction *)

(** [db.beginGlobalTransaction()], called without [await]: the
    transaction opens while the caller's next awaited statement, a read,
    is under way, so that read is sent outside it and the tables the
    transaction starts from are those of the call.  A global transaction
    that is already registered is the one used. *)
Definition beginGlobalTransaction (w : World) : World :=
  record BeginGlobalTransaction
    (mkWorld (database w)
       (match savepoint w with
        | Some tables => Some tables
        | None => Some (database w)
        end)
       (journal w) (nextId w) (clock w) (seed w) (pending w)).

(** [db.commitGlobalTransaction()], called without [await]: the commit
    is asked for, and the transaction stays registered until it is
    done. *)
Definition commitGlobalTransaction (w : World) : World :=
  record CommitGlobalTransaction (defer DeferredCommit w).

(** [db.rollbackGlobalTransaction()], called without [await]: the
    rollback is asked for; nothing is undone yet. *)
Definition rollbackGlobalTransaction (w : World) : World :=
  record RollbackGlobalTransaction (defer DeferredRollback w).

(** The commit, once it is done. *)
Definition committed (w : World) : World :=
  mkWorld (database w) None (journal w) (nextId w) (clock w) (seed w)
    (pending w).

(** The rollback, once it is done: the tables are those the transaction
    started from. *)
Definition rolledBack (w : World) : World :=
  mkWorld (withDefault (savepoint w) (database w)) None (journal w)
    (nextId w) (clock w) (seed w) (pending w).

(** *** What a write does to the tables *)

(** The rows a batch insert creates: consecutive ids, both timestamps at
    the current time. *)
Fixpoint insertedRows (next now : Z) (rows : list NewQuoteSchema)
  : list Quote :=
  match rows with
  | [] => []
  | r :: rs =>
      mkQuote next (new_content r) (new_author_id r) now now
      :: insertedRows (next + 1) now rs
  end.

(** [quote.merge({ content })]: the entity with its content replaced. *)
Definition merge (q : Quote) (newContent : string) : Quote :=
  mkQuote (id q) newContent (author_id q) (created_at q) (updated_at q).

(** Modelled from the spec: the [Quote] model with its column hooks is
    not among the sources.  [quote.save()] after that [merge]: a quote
    whose content did not change is not written; one whose content
    changed gets the new content and, as the timestamp [updated_at] of
    the data model says, the time of the save. *)
Definition saveRow (row : Quote) (now : Z) (db : Database) : Database :=
  setQuotes
    (map
       (fun r =>
          if id r =? id row then
            if String.eqb (content r) (content row) then r
            else mkQuote (id r) (content row) (author_id r) (created_at r) now
          else r)
       (quotes db))
    db.

(** The quote a lookup by id loads. *)
Definition stored (db : Database) (key : Z) : option Quote :=
  hd_error (filter (fun q => id q =? key) (quotes db)).

(** Modelled from the spec: a deleted quote no longer appears in any
    lookup; the [Quote] model, which says whether the row is erased or
    only marked, is not among the sources. *)
Definition deleteRow (key : Z) (db : Database) : Database :=
  setQuotes (filter (fun r => negb (id r =? key)) (quotes db)) db.

Definition detachAll (key : Z) (db : Database) : Database :=
  mkDatabase (quotes db) (authors db) (tags db)
    (filter (fun p => negb (fst p =? key)) (quote_tag db)).

(** [Quote.table]: the table the framework derives from the name of the
    model. *)
Definition Quote_table : string := "quotes".

Definition applyWrite (s : Statement) (w : World) : World :=
  match s with
  | InsertBatch _ _ rows =>
      mkWorld
        (setQuotes
           (quotes (database w) ++ insertedRows (nextId w) (clock w) rows)
           (database w))
        (savepoint w) (journal w)
        (nextId w + Z.of_nat (List.length rows)) (clock w) (seed w)
        (pending w)
  | SaveRow _ row => setDatabase (saveRow row (clock w) (database w)) w
  | DeleteRow _ key => setDatabase (deleteRow key (database w)) w
  | DetachAll _ _ key => setDatabase (detachAll key (database w)) w
  | Select _ => w
  | SelectRandom _ _ =>
      mkWorld (database w) (savepoint w) (journal w) (nextId w) (clock w)
        (S (seed w)) (pending w)
  end.

(** ** The repository and the service *)

Record GetByIdOptions : Type := mkGetByIdOptions {
  withRelations : option bool;
  findOrFail : option bool;
  transactions : option nat
}.

Record WriteOptions : Type := mkWriteOptions {
  transaction : option nat
}.

Record UpdateQuoteRequest : Type := mkUpdateQuoteRequest {
  input_content : Nullable string
}.

Record GetRandomQuotesRequest : Type := mkGetRandomQuotesRequest {
  minLength : Nullable Z;
  maxLength : Nullable Z;
  author : Nullable string;
  tags_filter : Nullable string;
  query_text : Nullable string;
  sortBy : string;
  order : OrderEnum;
  limit : nat
}.

Record ReadOptions : Type := mkReadOptions {
  read_withRelations : option bool;
  read_transaction : option nat
}.

(** The filter chain of [getRandomQuote] and [getRandomQuotes]. *)
Definition filtered (query : Query) (input : GetRandomQuotesRequest) : Query :=
  queryContent
    (filterTags
       (filterAuthor
          (filterLength (filterLength query (minLength input) GE)
             (maxLength input) LE)
          (author input))
       (tags_filter input))
    (query_text input).

(** ** A small database to run the operations on *)

Module Sample.

Definition q1 : Quote := mkQuote 1 "alpha" 10 100 100.
Definition q2 : Quote := mkQuote 2 "beta beta" 10 200 250.
Definition q3 : Quote := mkQuote 3 "gamma" 11 300 300.

Definition db : Database :=
  mkDatabase [q1; q2; q3]
    [mkAuthor 10 "Ann" "ann"; mkAuthor 11 "Bob" "bob"]
    [mkTag 1 "a"; mkTag 2 "b"; mkTag 3 "a,b"]
    [(1, 1); (1, 2); (2, 1); (3, 3)].

Definition world : World := mkWorld db None [] 4 1000 0 [].

Definition anyRaw : string -> Quote -> bool := fun _ _ => true.

Definition noFailure : Statement -> option Error := fun _ => None.

Definition detachFails : Statement -> option Error :=
  fun s =>
    match s with
    | DetachAll _ _ _ => Some (DatabaseError "lock wait timeout")
    | _ => None
    end.

Definition reversed : nat -> list Quote -> list Quote := fun _ l => rev l.

Definition emptyQuery : Query := newQuery None.

Definition request (sortBy : string) (order : OrderEnum) (limit : nat)
  : GetRandomQuotesRequest :=
  mkGetRandomQuotesRequest Undefined Null Undefined Undefined Undefined
    sortBy order limit.

End Sample.

(** ** What the other filters are meant to select *)

(** The author of the quote is known under that name or that slug. *)
Definition hasAuthor (db : Database) (q : Quote) (a : string) : Prop :=
  exists r, In r (authors db) /\ author_key r = author_id q
            /\ (author_name r = a \/ author_slug r = a).

Definition lengthHolds (bound : Nullable Z) (direction : Direction)
  (q : Quote) : Prop :=
  match bound with
  | Val n =>
      match direction with
      | GE => n <= sqlLength (content q)
      | LE => sqlLength (content q) <= n
      end
  | _ => True
  end.

Definition authorHolds (db : Database) (author : Nullable string) (q : Quote)
  : Prop :=
  match author with
  | Val a => hasAuthor db q a
  | _ => True
  end.

Definition tagsHold (db : Database) (tags : Nullable string) (q : Quote)
  : Prop :=
  match tags with
  | Val s =>
      if includes s "|" then
        exists name, In name (split s "|") /\ hasTag db q name
      else forall name, In name (split s ",") -> hasTag db q name
  | _ => True
  end.

Definition searchHolds (rawMatches : string -> Quote -> bool)
  (search : Nullable string) (q : Quote) : Prop :=
  match search with
  | Val s => rawMatches (matchAgainst (keywordsOf s)) q = true
  | _ => True
  end.

(** The names a tags string lists. *)
Definition tagNames (s : string) : list string :=
  if includes s "|" then split s "|" else split s ",".

(** ** The other requests *)

Record GetRandomQuoteRequest : Type := mkGetRandomQuoteRequest {
  one_minLength : Nullable Z;
  one_maxLength : Nullable Z;
  one_author : Nullable string;
  one_tags : Nullable string;
  one_query : Nullable string
}.

(** ** Keys *)

(** The ids are those of a primary key with auto-increment: no two
    quotes share one, and the counter is beyond all of them. *)
Definition wellKeyed (w : World) : Prop :=
  NoDup (map id (quotes (database w)))
  /\ forall q, In q (quotes (database w)) -> id q < nextId w.

(** ** The migration of the tags table *)

Inductive ColumnType : Type := BigIncrements | StringColumn | Timestamp.

Record Column : Type := mkColumn {
  column_name : string;
  column_type : ColumnType;
  column_index : bool;
  column_default : option string
}.

Record Table : Type := mkTable {
  table_name : string;
  table_columns : list Column
}.

Definition Schema : Type := list Table.

Definition hasTable (schema : Schema) (name : string) : bool :=
  existsb (fun t => String.eqb (table_name t) name) schema.

(** [schema.createTable]: refused when a table of that name exists. *)
Definition createTable (name : string) (columns : list Column)
  (schema : Schema) : Result Schema :=
  if hasTable schema name
  then Throw (DatabaseError "table already exists")
  else Return (schema ++ [mkTable name columns])%list.

(** [schema.dropTable]: refused when no table of that name exists. *)
Definition dropTable (name : string) (schema : Schema) : Result Schema :=
  if hasTable schema name
  then Return (filter (fun t => negb (String.eqb (table_name t) name)) schema)
  else Throw (DatabaseError "unknown table").

Definition tableName : string := "tags".

Definition up (schema : Schema) : Result Schema :=
  createTable tableName
    [mkColumn "id" BigIncrements false None;
     mkColumn "name" StringColumn true None;
     mkColumn "created_at" Timestamp false (Some "CURRENT_TIMESTAMP");
     mkColumn "updated_at" Timestamp false (Some "CURRENT_TIMESTAMP");
     mkColumn "deleted_at" Timestamp false None]
    schema.

Definition down (schema : Schema) : Result Schema :=
  dropTable tableName schema.

(** ** More data to run the operations on *)

Module Fixture.

Definition refuseSave : Statement -> option Error :=
  fun s =>
    match s with
    | SaveRow _ _ => Some (DatabaseError "connection lost")
    | _ => None
    end.

Definition refuseInsert : Statement -> option Error :=
  fun s =>
    match s with
    | InsertBatch _ _ _ => Some (DatabaseError "connection lost")
    | _ => None
    end.

Definition refuseDelete : Statement -> option Error :=
  fun s =>
    match s with
    | DeleteRow _ _ => Some (DatabaseError "connection lost")
    | _ => None
    end.

Definition quotesTable : Table :=
  mkTable "quotes" [mkColumn "id" BigIncrements false None].

Definition oneQuote : GetRandomQuoteRequest :=
  mkGetRandomQuoteRequest (Val 6) Undefined (Val "ann") (Val "a") Null.

(** A draw that leaves the rows in the order of the table. *)
Definition asStored : nat -> list Quote -> list Quote := fun _ l => l.

(** An engine that refuses the random selects, as MySQL does a
    statement whose text is not well-formed. *)
Definition refuseRandom : Statement -> option Error :=
  fun s =>
    match s with
    | SelectRandom _ _ => Some (DatabaseError "syntax error in statement")
    | _ => None
    end.

End Fixture.

Section Repository.

(** The engine's verdict on a raw SQL predicate. *)
Variable rawMatches : string -> Quote -> bool.

(** The error, if any, the database answers a statement with. *)
Variable failure : Statement -> option Error.

(** The order [RAND()] puts the rows in, for each draw. *)
Variable rand : nat -> list Quote -> list Quote.

(** The collation behind [String.prototype.localeCompare]. *)
Variable localeCompare : string -> string -> Z.

(** An awaited read. *)
Definition select (query : Query) : M (list Quote) :=
  fun w =>
    (Return (runQuery rawMatches (database w) query),
     record (Executed (Select query)) w).

(** [query.orderByRaw('RAND()').limit(n)], awaited: a statement the
    engine refuses, as it does one whose raw predicate is not well-formed
    SQL, throws its error. *)
Definition selectRandom (query : Query) (n : nat) : M (list Quote) :=
  fun w =>
    match failure (SelectRandom query n) with
    | Some e => (Throw e, record (Executed (SelectRandom query n)) w)
    | None =>
        (Return
           (firstn n (rand (seed w) (runQuery rawMatches (database w) query))),
         applyWrite (SelectRandom query n)
           (record (Executed (SelectRandom query n)) w))
    end.

(** An awaited write: the error of the database is thrown. *)
Definition execute (s : Statement) : M unit :=
  fun w =>
    match failure s with
    | Some e => (Throw e, record (Executed s) w)
    | None => (Return tt, applyWrite s (record (Executed s) w))
    end.

(** A write whose promise is not awaited: the caller goes on at once,
    the statement is sent after it, and its error is thrown to no one. *)
Definition executeDetached (s : Statement) : M unit :=
  fun w => (Return tt, defer (DeferredStatement s) w).

(** One deferred thing happens. *)
Definition settleOne (w : World) (d : Deferred) : World :=
  match d with
  | DeferredStatement s =>
      match failure s with
      | Some _ => record (Executed s) w
      | None => applyWrite s (record (Executed s) w)
      end
  | DeferredCommit => committed w
  | DeferredRollback => rolledBack w
  end.

(** Everything that was left pending has happened, in the order in which
    it was asked for. *)
Definition settle (w : World) : World :=
  fold_left settleOne (pending w)
    (mkWorld (database w) (savepoint w) (journal w) (nextId w) (clock w)
       (seed w) []).

Definition first (query : Query) : M (option Quote) :=
  rows <- select query ;; ret (hd_error rows).

Definition firstOrFail (query : Query) : M (option Quote) :=
  rows <- select query ;;
  match hd_error rows with
  | Some q => ret (Some q)
  | None => throw E_ROW_NOT_FOUND
  end.

Definition getById (key : Z) (options : GetByIdOptions) : M (option Quote) :=
  let withRelations := withDefault (withRelations options) true in
  let findOrFail := withDefault (findOrFail options) true in
  let query := addWhere (newQuery (transactions options)) (WhereId key) in
  let query := if withRelations then withScopes query else query in
  if findOrFail then firstOrFail query else first query.

Definition update (key : Z) (input : UpdateQuoteRequest)
  (options : WriteOptions) : M (option Quote) :=
  quote <- getById key (mkGetByIdOptions None None (transaction options)) ;;
  match quote with
  | Some q =>
      let q' := merge q (nullish (input_content input) (content q)) in
      executeDetached (SaveRow (clientOf (transaction options)) q') ;;;
      ret (Some q')
  | None => ret None
  end.

Definition createMultiple (input : list NewQuoteSchema)
  (options : WriteOptions) : M (list Quote) :=
  match transaction options with
  | Some t => execute (InsertBatch (Transaction t) Quote_table input)
  | None => execute (InsertBatch DefaultConnection Quote_table input)
  end ;;;
  select
    (addWhere (newQuery (transaction options))
       (WhereInContent (map new_content input))).

Definition delete (key : Z) (options : WriteOptions) : M (option Quote) :=
  quote <- getById key (mkGetByIdOptions None None (transaction options)) ;;
  match quote with
  | Some q => execute (DeleteRow (clientOf (transaction options)) (id q))
  | None => ret tt
  end ;;;
  ret quote.

Definition getRandomQuotes (input : GetRandomQuotesRequest)
  (options : ReadOptions) : M (list Quote) :=
  let withRelations := withDefault (read_withRelations options) true in
  let query := filtered (newQuery (read_transaction options)) input in
  let query := if withRelations then withScopes query else query in
  quotes <- selectRandom query (limit input) ;;
  ret (sort (comparator localeCompare (sortBy input) (order input)) quotes).

(** [quote.related('tags').detach()]; on [null] the property access
    throws. *)
Definition detachTags (quote : option Quote) : M unit :=
  match quote with
  | Some q => execute (DetachAll DefaultConnection "tags" (id q))
  | None => throw TypeError
  end.

(** [DeleteQuoteService.handle] *)
Definition handle (key : Z) : M (option Quote) :=
  fun w =>
    let w1 := beginGlobalTransaction w in
    match (quote <- delete key (mkWriteOptions None) ;;
           detachTags quote ;;;
           ret quote) w1 with
    | (Return quote, w2) => (Return quote, commitGlobalTransaction w2)
    | (Throw error, w2) => (Throw error, rollbackGlobalTransaction w2)
    end.

(** ** The other methods of the repository *)

(** [query.orderByRaw('RAND()').first()]: one row is asked for, and the
    answer is that row or null. *)
Definition getRandomQuote (input : GetRandomQuoteRequest)
  (options : ReadOptions) : M (option Quote) :=
  let withRelations := withDefault (read_withRelations options) true in
  let query := newQuery (read_transaction options) in
  let query :=
    queryContent
      (filterTags
         (filterAuthor
            (filterLength (filterLength query (one_minLength input) GE)
               (one_maxLength input) LE)
            (one_author input))
         (one_tags input))
      (one_query input) in
  let query := if withRelations then withScopes query else query in
  rows <- selectRandom query 1 ;; ret (hd_error rows).

Definition getByIds (ids : list Z) (options : ReadOptions) : M (list Quote) :=
  let withRelations := withDefault (read_withRelations options) true in
  let query := addWhere (newQuery (read_transaction options)) (WhereInId ids) in
  let query := if withRelations then withScopes query else query in
  select query.

Definition getByContents (contents : list string) (options : ReadOptions)
  : M (list Quote) :=
  let withRelations := withDefault (read_withRelations options) true in
  let query :=
    addWhere (newQuery (read_transaction options)) (WhereInContent contents) in
  let query := if withRelations then withScopes query else query in
  select query.

(** [Quote.create(input, { client })]: an insert of one row; the entity
    returned carries the id the database gave it. *)
Definition create (input : NewQuoteSchema) (options : WriteOptions) : M Quote :=
  fun w =>
    match execute
            (InsertBatch (clientOf (transaction options)) Quote_table [input])
            w with
    | (Return _, w') =>
        (Return
           (mkQuote (nextId w) (new_content input) (new_author_id input)
              (clock w) (clock w)),
         w')
    | (Throw e, w') => (Throw e, w')
    end.

(** What the statement does not mention plays no part in its proof. *)
Ltac forget_unused := repeat match goal with x : _ |- _ => clear x end.

(** * Properties *)

(** ** Strings *)

Lemma split_not_nil (s : string) (sep : ascii) : split s sep <> [].
Proof.
  destruct s as [|a r]; simpl; [discriminate|].
  destruct (Ascii.eqb a sep); [discriminate|].
  destruct (split r sep); discriminate.
Qed.

Lemma split_without_separator (s : string) (sep : ascii) :
  includes s sep = false -> split s sep = [s].
Proof.
  induction s as [|a r IH]; simpl; intros H; [reflexivity|].
  destruct (Ascii.eqb a sep); [discriminate|].
  rewrite (IH H). reflexivity.
Qed.

Lemma split_pieces_free (s : string) (sep : ascii) :
  Forall (fun t => includes t sep = false) (split s sep).
Proof.
  induction s as [|a r IH]; simpl.
  - constructor; [reflexivity|constructor].
  - destruct (Ascii.eqb a sep) eqn:E.
    + constructor; [reflexivity|exact IH].
    + destruct (split r sep) as [|t ts].
      * constructor; [simpl; rewrite E; reflexivity|constructor].
      * inversion IH; subst. constructor; [simpl; rewrite E; assumption|assumption].
Qed.

Lemma join_cons (x : string) (r : list string) (sep : string) :
  r <> [] -> join (x :: r) sep = x ++ sep ++ join r sep.
Proof. destruct r; [congruence|reflexivity]. Qed.

Lemma join_split (s : string) (sep : ascii) :
  join (split s sep) (String sep EmptyString) = s.
Proof.
  induction s as [|a r IH]; simpl; [reflexivity|].
  destruct (Ascii.eqb a sep) eqn:E.
  - apply Ascii.eqb_eq in E; subst a.
    rewrite join_cons by apply split_not_nil.
    simpl. rewrite IH. reflexivity.
  - pose proof (split_not_nil r sep) as N.
    destruct (split r sep) as [|t ts]; [congruence|].
    destruct ts as [|u us].
    + simpl in *. rewrite IH. reflexivity.
    + rewrite join_cons by discriminate.
      rewrite join_cons in IH by discriminate.
      rewrite <- IH. reflexivity.
Qed.

Lemma includes_split_length (s : string) (sep : ascii) :
  includes s sep = true -> (2 <= List.length (split s sep))%nat.
Proof.
  induction s as [|a r IH]; simpl; [discriminate|].
  destruct (Ascii.eqb a sep).
  - intros _. pose proof (split_not_nil r sep).
    destruct (split r sep); [congruence|simpl; lia].
  - intros H. specialize (IH H).
    destruct (split r sep); simpl in *; lia.
Qed.

(** ** Queries *)

Lemma wheres_fold_addWhere (f : string -> Clause) (l : list string) (q : Query) :
  wheres (fold_left (fun q tag => addWhere q (f tag)) l q)
  = (wheres q ++ map f l)%list.
Proof.
  revert q. induction l as [|x l IH]; intros q; simpl.
  - rewrite app_nil_r. reflexivity.
  - rewrite IH. simpl. rewrite <- app_assoc. reflexivity.
Qed.

Lemma hasTag_related (db : Database) (q : Quote) (name : string) :
  existsb (fun t => sqlEq (tag_name t) name) (relatedTags db q) = true
  <-> hasTag db q name.
Proof.
  unfold hasTag, relatedTags, sqlEq. rewrite existsb_exists. split.
  - intros [t [Hin Heq]]. apply filter_In in Hin. destruct Hin as [Ht Hp].
    apply existsb_exists in Hp. destruct Hp as [[a b] [Hab Hm]].
    simpl in Hm. apply andb_true_iff in Hm. destruct Hm as [Ha Hb].
    apply Z.eqb_eq in Ha, Hb. subst a b.
    apply String.eqb_eq in Heq. exists t. auto.
  - intros [t [Ht [Hp Hn]]]. exists t. split.
    + apply filter_In. split; [assumption|].
      apply existsb_exists. exists (id q, tag_key t). split; [assumption|].
      simpl. rewrite !Z.eqb_refl. reflexivity.
    + apply String.eqb_eq. assumption.
Qed.

Lemma evalGroups_or (row : string -> option string) (cur : bool)
  (column : string) (l : list string) :
  evalGroups row cur (map (SubOrWhere column) l)
  = cur || existsb (testColumn row column) l.
Proof.
  revert cur. induction l as [|x l IH]; intros cur; simpl.
  - rewrite orb_false_r. reflexivity.
  - rewrite IH. reflexivity.
Qed.

Lemma evalCallback_or (row : string -> option string) (column : string)
  (l : list string) :
  l <> [] ->
  evalCallback row (map (SubOrWhere column) l)
  = existsb (testColumn row column) l.
Proof.
  destruct l as [|x l]; [congruence|]. intros _. simpl.
  apply evalGroups_or.
Qed.

Lemma testColumn_tag_name (t : Tag) (value : string) :
  testColumn (tagColumn t) "name" value = sqlEq (tag_name t) value.
Proof. reflexivity. Qed.

Lemma runQuery_addWhere (db : Database) (query : Query) (c : Clause)
  (q : Quote) :
  In q (runQuery rawMatches db (addWhere query c))
  <-> In q (runQuery rawMatches db query) /\ evalClause rawMatches db q c = true.
Proof.
  unfold runQuery, matches, addWhere. simpl.
  rewrite !filter_In, forallb_app. simpl. rewrite andb_true_r, andb_true_iff.
  tauto.
Qed.

Lemma runQuery_wheres_app (db : Database) (query query' : Query)
  (cs : list Clause) (q : Quote) :
  wheres query' = (wheres query ++ cs)%list ->
  In q (runQuery rawMatches db query')
  <-> In q (runQuery rawMatches db query)
      /\ forall c, In c cs -> evalClause rawMatches db q c = true.
Proof.
  intros E. unfold runQuery, matches. rewrite E.
  rewrite !filter_In, forallb_app, andb_true_iff, (forallb_forall _ cs).
  tauto.
Qed.

Lemma evalClause_tag_all (db : Database) (q : Quote) (name : string) :
  evalClause rawMatches db q (WhereHas "tags" [SubWhere "name" name]) = true
  <-> hasTag db q name.
Proof.
  simpl. rewrite <- hasTag_related. reflexivity.
Qed.

Lemma evalClause_tag_any (db : Database) (q : Quote) (l : list string) :
  l <> [] ->
  evalClause rawMatches db q (WhereHas "tags" (map (SubOrWhere "name") l)) = true
  <-> exists name, In name l /\ hasTag db q name.
Proof.
  intros N. simpl. rewrite existsb_exists. split.
  - intros [t [Ht He]]. rewrite (evalCallback_or _ _ _ N) in He.
    apply existsb_exists in He. destruct He as [name [Hn Hm]].
    exists name. split; [assumption|].
    apply hasTag_related. apply existsb_exists. exists t. split; assumption.
  - intros [name [Hn Hh]]. apply hasTag_related in Hh.
    apply existsb_exists in Hh. destruct Hh as [t [Ht Hm]].
    exists t. split; [assumption|]. rewrite (evalCallback_or _ _ _ N).
    apply existsb_exists. exists name. split; assumption.
Qed.


(** C10: as soon as the tags string holds a pipe, the filter adds the
    single OR clause and its names are the pieces between the pipes:
    no piece holds a pipe, the pieces joined by pipes give the string
    back, so a comma stays inside its piece; "a,b|c" names "a,b" and "c". *)
Theorem filterTags_pipe_precedence (db : Database) (query : Query)
  (s : string) (q : Quote) :
  includes s "|" = true ->
  filterTags query (Val s)
  = addWhere query (WhereHas "tags" (map (SubOrWhere "name") (split s "|")))
  /\ Forall (fun name => includes name "|" = false) (split s "|")
  /\ join (split s "|") "|" = s
  /\ (In q (runQuery rawMatches db (filterTags query (Val s)))
      <-> In q (runQuery rawMatches db query)
          /\ exists name, In name (split s "|") /\ hasTag db q name)
  /\ split "a,b|c" "|" = ["a,b"; "c"].
Proof.
  intros E. unfold filterTags. rewrite E.
  split; [reflexivity|]. split; [apply split_pieces_free|].
  split; [apply join_split|]. split; [|reflexivity].
  rewrite runQuery_addWhere, evalClause_tag_any by apply split_not_nil.
  reflexivity.
Qed.

(** C4: with both bounds given the query keeps the quotes whose content
    length L has m <= L and L <= M, each bound alone is inclusive too, and
    an undefined or null bound leaves the query as it was. *)
Theorem filterLength_inclusive_bounds (db : Database) (query : Query)
  (m M : Z) (q : Quote) :
  (In q (runQuery rawMatches db
           (filterLength (filterLength query (Val m) GE) (Val M) LE))
   <-> In q (runQuery rawMatches db query)
       /\ m <= sqlLength (content q) /\ sqlLength (content q) <= M)
  /\ (In q (runQuery rawMatches db (filterLength query (Val m) GE))
      <-> In q (runQuery rawMatches db query) /\ m <= sqlLength (content q))
  /\ (In q (runQuery rawMatches db (filterLength query (Val M) LE))
      <-> In q (runQuery rawMatches db query) /\ sqlLength (content q) <= M)
  /\ (forall direction,
        filterLength query Undefined direction = query
        /\ filterLength query Null direction = query).
Proof.
  unfold filterLength. rewrite !runQuery_addWhere. simpl.
  rewrite !Z.leb_le. repeat split; try tauto.
Qed.

(** ** Splitting the search text *)





(** ** Splitting the search text, unit by unit *)













(** ** Lookups by id *)

Lemma runQuery_byId (db : Database) (query : Query) (key : Z) :
  wheres query = [WhereId key] ->
  runQuery rawMatches db query = filter (fun q => id q =? key) (quotes db).
Proof.
  intros E. unfold runQuery, matches. rewrite E. apply filter_ext.
  intros q. simpl. apply andb_true_r.
Qed.

Lemma getById_run (key : Z) (options : GetByIdOptions) (w : World) :
  exists query,
    wheres query = [WhereId key]
    /\ client query = clientOf (transactions options)
    /\ getById key options w
       = (match stored (database w) key with
          | Some q => Return (Some q)
          | None =>
              if withDefault (findOrFail options) true
              then Throw E_ROW_NOT_FOUND else Return None
          end,
          record (Executed (Select query)) w).
Proof.
  unfold getById, stored.
  set (base := addWhere (newQuery (transactions options)) (WhereId key)).
  exists (if withDefault (withRelations options) true
          then withScopes base else base).
  assert (W : wheres (if withDefault (withRelations options) true
                      then withScopes base else base) = [WhereId key])
    by (destruct (withDefault (withRelations options) true); reflexivity).
  split; [exact W|].
  split; [destruct (withDefault (withRelations options) true); reflexivity|].
  destruct (withDefault (findOrFail options) true);
    unfold firstOrFail, first, bind, select, ret, throw;
    rewrite (runQuery_byId _ _ _ W);
    destruct (hd_error (filter (fun q => id q =? key) (quotes (database w))));
    reflexivity.
Qed.

Lemma stored_none (db : Database) (key : Z) :
  (forall q, In q (quotes db) -> id q <> key) -> stored db key = None.
Proof.
  intros H. unfold stored.
  destruct (filter (fun q => id q =? key) (quotes db)) as [|q l] eqn:E;
    [reflexivity|].
  assert (Hin : In q (filter (fun q => id q =? key) (quotes db)))
    by (rewrite E; left; reflexivity).
  apply filter_In in Hin. destruct Hin as [Hq Hk].
  apply Z.eqb_eq in Hk. exfalso. exact (H q Hq Hk).
Qed.

Lemma stored_some (db : Database) (key : Z) :
  (exists q, In q (quotes db) /\ id q = key) ->
  exists q, stored db key = Some q /\ In q (quotes db) /\ id q = key.
Proof.
  intros [q0 [H0 K0]]. unfold stored.
  destruct (filter (fun q => id q =? key) (quotes db)) as [|q l] eqn:E.
  - assert (Hin : In q0 (filter (fun q => id q =? key) (quotes db)))
      by (apply filter_In; split; [assumption|apply Z.eqb_eq; assumption]).
    rewrite E in Hin. destruct Hin.
  - exists q. split; [reflexivity|].
    assert (Hin : In q (filter (fun q => id q =? key) (quotes db)))
      by (rewrite E; left; reflexivity).
    apply filter_In in Hin. destruct Hin as [Hq Hk].
    apply Z.eqb_eq in Hk. auto.
Qed.

(** C7: when no quote has the id, [getById] throws the not-found error
    if [findOrFail] is left out or true, and returns null without
    throwing if [findOrFail] is false; the tables are left as they were. *)
Theorem getById_findOrFail (key : Z) (options : GetByIdOptions) (w : World) :
  (forall q, In q (quotes (database w)) -> id q <> key) ->
  (findOrFail options = None \/ findOrFail options = Some true ->
   fst (getById key options w) = Throw E_ROW_NOT_FOUND)
  /\ (findOrFail options = Some false ->
      fst (getById key options w) = Return None)
  /\ database (snd (getById key options w)) = database w.
Proof.
  intros H. destruct (getById_run key options w) as [query [_ [_ E]]].
  rewrite E, (stored_none _ _ H). simpl.
  split; [|split; [|reflexivity]].
  - intros [F|F]; rewrite F; reflexivity.
  - intros F. rewrite F. reflexivity.
Qed.

(** C2, as the code has it: when no quote has the id, [update] and
    [delete] both throw the not-found error of [getById], whose
    [findOrFail] they leave at its default, and write nothing. *)
Theorem update_delete_missing_id (key : Z) (input : UpdateQuoteRequest)
  (options : WriteOptions) (w : World) :
  (forall q, In q (quotes (database w)) -> id q <> key) ->
  fst (update key input options w) = Throw E_ROW_NOT_FOUND
  /\ fst (delete key options w) = Throw E_ROW_NOT_FOUND
  /\ database (snd (update key input options w)) = database w
  /\ database (snd (delete key options w)) = database w.
Proof.
  intros H. unfold update, delete, bind.
  destruct (getById_run key (mkGetByIdOptions None None (transaction options)) w)
    as [query [_ [_ E]]].
  rewrite E, (stored_none _ _ H). simpl. auto.
Qed.

(** ** Update *)






(** ** Batch insert *)

Lemma insertedRows_columns (next now : Z) (input : list NewQuoteSchema) :
  map content (insertedRows next now input) = map new_content input
  /\ map author_id (insertedRows next now input) = map new_author_id input
  /\ List.length (insertedRows next now input) = List.length input.
Proof.
  revert next. induction input as [|r rs IH]; intros next; simpl;
    [auto|].
  destruct (IH (next + 1)) as [A [B C]]. rewrite A, B, C. auto.
Qed.

Lemma filter_all {A : Type} (f : A -> bool) (l : list A) :
  (forall x, In x l -> f x = true) -> filter f l = l.
Proof.
  induction l as [|x l IH]; simpl; intros H; [reflexivity|].
  rewrite (H x (or_introl eq_refl)), IH; [reflexivity|].
  intros y Hy. apply H. right. assumption.
Qed.

Lemma filter_none {A : Type} (f : A -> bool) (l : list A) :
  (forall x, In x l -> f x = false) -> filter f l = [].
Proof.
  induction l as [|x l IH]; simpl; intros H; [reflexivity|].
  rewrite (H x (or_introl eq_refl)). apply IH.
  intros y Hy. apply H. right. assumption.
Qed.

Lemma runQuery_byContents (db : Database) (query : Query)
  (contents : list string) :
  wheres query = [WhereInContent contents] ->
  runQuery rawMatches db query
  = filter (fun q => existsb (String.eqb (content q)) contents) (quotes db).
Proof.
  intros E. unfold runQuery, matches. rewrite E. apply filter_ext.
  intros q. simpl. apply andb_true_r.
Qed.

Lemma fetch_back (old : list Quote) (next now : Z)
  (input : list NewQuoteSchema) :
  (forall r q, In r input -> In q old -> content q <> new_content r) ->
  filter (fun q => existsb (String.eqb (content q)) (map new_content input))
    (old ++ insertedRows next now input)
  = insertedRows next now input.
Proof.
  intros H. rewrite filter_app, filter_none, filter_all; [reflexivity| |].
  - intros q Hq. apply existsb_exists. exists (content q).
    split; [|apply String.eqb_refl].
    destruct (insertedRows_columns next now input) as [C _]. rewrite <- C.
    apply in_map. assumption.
  - intros q Hq. destruct (existsb _ _) eqn:E; [|reflexivity].
    apply existsb_exists in E. destruct E as [c [Hc Heq]].
    apply in_map_iff in Hc. destruct Hc as [r [<- Hr]].
    apply String.eqb_eq in Heq. exfalso. exact (H r q Hr Hq Heq).
Qed.

(** C8: when no stored quote has one of the contents of the input and
    the insert goes through, [createMultiple] sends one batch insert,
    through the transaction when one is given and through the default
    connection otherwise, then one select through the same client, and
    returns exactly the rows that insert created: as many as the input,
    with its contents and authors in its order. *)
Theorem createMultiple_returns_inserted (input : list NewQuoteSchema)
  (options : WriteOptions) (w : World) :
  (forall r q, In r input -> In q (quotes (database w)) ->
               content q <> new_content r) ->
  failure (InsertBatch (clientOf (transaction options)) Quote_table input)
  = None ->
  exists rows w',
    createMultiple input options w = (Return rows, w')
    /\ rows = insertedRows (nextId w) (clock w) input
    /\ quotes (database w') = (quotes (database w) ++ rows)%list
    /\ List.length rows = List.length input
    /\ map content rows = map new_content input
    /\ map author_id rows = map new_author_id input
    /\ journal w'
       = (journal w
          ++ [Executed
                (InsertBatch (clientOf (transaction options)) Quote_table input);
              Executed
                (Select
                   (mkQuery (clientOf (transaction options))
                      [WhereInContent (map new_content input)] false))])%list.
Proof.
  intros H F.
  destruct (insertedRows_columns (nextId w) (clock w) input) as [C1 [C2 C3]].
  exists (insertedRows (nextId w) (clock w) input).
  unfold createMultiple, bind, execute, select.
  assert (R : forall db,
             runQuery rawMatches db
               (addWhere (newQuery (transaction options))
                  (WhereInContent (map new_content input)))
             = filter
                 (fun q => existsb (String.eqb (content q))
                             (map new_content input))
                 (quotes db))
    by (intros db; apply runQuery_byContents; reflexivity).
  destruct options as [[t|]]; cbn [transaction clientOf] in *; rewrite F;
    cbv beta iota; rewrite R;
    (eexists; split;
     [cbn [applyWrite record database quotes setQuotes];
      rewrite (fetch_back _ _ _ _ H); reflexivity|]);
    simpl; rewrite <- app_assoc; auto 10.
Qed.

(** ** Delete *)

Lemma stored_id (db : Database) (key : Z) (q : Quote) :
  stored db key = Some q -> id q = key /\ In q (quotes db).
Proof.
  unfold stored. intros S.
  destruct (filter (fun q => id q =? key) (quotes db)) as [|x l] eqn:E;
    [discriminate|].
  injection S as ->.
  assert (Hin : In q (filter (fun q => id q =? key) (quotes db)))
    by (rewrite E; left; reflexivity).
  apply filter_In in Hin. destruct Hin as [Hq Hk].
  apply Z.eqb_eq in Hk. auto.
Qed.

Lemma deleteRow_stored (db : Database) (key : Z) :
  stored (deleteRow key db) key = None.
Proof.
  apply stored_none. unfold deleteRow. simpl. intros q Hq.
  apply filter_In in Hq. destruct Hq as [_ Hk].
  apply negb_true_iff, Z.eqb_neq in Hk. assumption.
Qed.

Lemma detachAll_none (db : Database) (key : Z) (p : Z * Z) :
  In p (quote_tag (detachAll key db)) -> fst p <> key.
Proof.
  unfold detachAll. simpl. intros Hp. apply filter_In in Hp.
  destruct Hp as [_ Hk]. apply negb_true_iff, Z.eqb_neq in Hk. assumption.
Qed.

Lemma getById_same_database (key : Z) (options : GetByIdOptions)
  (w w' : World) :
  database w' = database w ->
  fst (getById key options w') = fst (getById key options w).
Proof.
  intros E.
  destruct (getById_run key options w) as [q1 [_ [_ E1]]].
  destruct (getById_run key options w') as [q2 [_ [_ E2]]].
  rewrite E1, E2, E. reflexivity.
Qed.

Lemma delete_run (key : Z) (options : WriteOptions) (w : World) :
  exists query,
    wheres query = [WhereId key]
    /\ delete key options w
       = match stored (database w) key with
         | None =>
             (Throw E_ROW_NOT_FOUND, record (Executed (Select query)) w)
         | Some q =>
             let s := DeleteRow (clientOf (transaction options)) (id q) in
             let w1 := record (Executed s) (record (Executed (Select query)) w) in
             match failure s with
             | Some e => (Throw e, w1)
             | None => (Return (Some q), applyWrite s w1)
             end
         end.
Proof.
  destruct (getById_run key (mkGetByIdOptions None None (transaction options)) w)
    as [query [W [_ E]]].
  exists query. split; [exact W|].
  unfold delete, bind. rewrite E.
  destruct (stored (database w) key) as [q|]; [|reflexivity].
  unfold execute. cbv zeta.
  destruct (failure (DeleteRow (clientOf (transaction options)) (id q)));
    reflexivity.
Qed.

(** ** Sorting *)

Section Sorting.

Variable A : Type.
Variable cmp : A -> A -> Z.

Hypothesis cmp_total : forall x y, cmp x y <= 0 \/ cmp y x <= 0.
Hypothesis cmp_trans :
  forall x y z, cmp x y <= 0 -> cmp y z <= 0 -> cmp x z <= 0.

Lemma insertSorted_Permutation (x : A) (l : list A) :
  Permutation (insertSorted cmp x l) (x :: l).
Proof.
  induction l as [|h t IH]; simpl; [reflexivity|].
  destruct (cmp x h <=? 0); [reflexivity|].
  rewrite IH. apply perm_swap.
Qed.

Lemma sort_Permutation (l : list A) : Permutation (sort cmp l) l.
Proof.
  induction l as [|x l IH]; simpl; [constructor|].
  fold (sort cmp l). rewrite insertSorted_Permutation.
  constructor. exact IH.
Qed.

Lemma insertSorted_sorted (x : A) (l : list A) :
  StronglySorted (notAfter cmp) l ->
  StronglySorted (notAfter cmp) (insertSorted cmp x l).
Proof.
  induction 1 as [|h t Hs IH Hf]; simpl.
  - constructor; constructor.
  - destruct (cmp x h <=? 0) eqn:E.
    + apply Z.leb_le in E. constructor; [constructor; assumption|].
      constructor; [exact E|].
      apply Forall_forall. intros y Hy.
      apply (cmp_trans x h y E). rewrite Forall_forall in Hf. exact (Hf y Hy).
    + apply Z.leb_gt in E. constructor; [exact IH|].
      apply Forall_forall. intros y Hy.
      apply (Permutation_in _ (insertSorted_Permutation x t)) in Hy.
      destruct Hy as [<-|Hy].
      * destruct (cmp_total h x) as [T|T]; [exact T|lia].
      * rewrite Forall_forall in Hf. exact (Hf y Hy).
Qed.

Lemma sort_sorted (l : list A) : StronglySorted (notAfter cmp) (sort cmp l).
Proof.
  induction l as [|x l IH]; simpl; [constructor|].
  apply insertSorted_sorted. exact IH.
Qed.

End Sorting.

Lemma firstn_In {A : Type} (n : nat) (l : list A) (x : A) :
  In x (firstn n l) -> In x l.
Proof.
  intros H. rewrite <- (firstn_skipn n l). apply in_or_app. left. exact H.
Qed.

Lemma StronglySorted_weaken {A : Type} (R S : A -> A -> Prop) (l : list A) :
  (forall x y, R x y -> S x y) -> StronglySorted R l -> StronglySorted S l.
Proof.
  intros H. induction 1 as [|h t Hs IH Hf]; constructor; [assumption|].
  apply Forall_forall. intros y Hy. rewrite Forall_forall in Hf. auto.
Qed.

Lemma consistent_flip (c : string -> string -> Z) (x y : string) :
  consistentComparator c -> 0 <= c x y -> c y x <= 0.
Proof.
  intros [Anti _] H. specialize (Anti x y).
  destruct (c x y), (c y x); simpl in *; lia.
Qed.

Lemma consistent_total (c : string -> string -> Z) (x y : string) :
  consistentComparator c -> c x y <= 0 \/ c y x <= 0.
Proof.
  intros [Anti _]. specialize (Anti x y).
  destruct (c x y), (c y x); simpl in *; lia.
Qed.

Lemma consistent_unflip (c : string -> string -> Z) (x y : string) :
  consistentComparator c -> c y x <= 0 -> 0 <= c x y.
Proof.
  intros [Anti _] H. specialize (Anti x y).
  destruct (c x y), (c y x); simpl in *; lia.
Qed.

Lemma comparator_total (key : string) (direction : OrderEnum) (a b : Quote) :
  consistentComparator localeCompare ->
  comparator localeCompare key direction a b <= 0
  \/ comparator localeCompare key direction b a <= 0.
Proof.
  intros C. unfold comparator, property.
  pose proof (consistent_total localeCompare (content a) (content b) C) as T.
  pose proof (consistent_unflip localeCompare (content a) (content b) C) as U.
  pose proof (consistent_unflip localeCompare (content b) (content a) C) as V.
  repeat match goal with
         | |- context [if String.eqb key ?k then _ else _] =>
             destruct (String.eqb key k)
         end; destruct direction; simpl; lia.
Qed.

Lemma comparator_trans (key : string) (direction : OrderEnum)
  (a b c : Quote) :
  consistentComparator localeCompare ->
  comparator localeCompare key direction a b <= 0 ->
  comparator localeCompare key direction b c <= 0 ->
  comparator localeCompare key direction a c <= 0.
Proof.
  intros C. unfold comparator, property.
  pose proof (proj2 C (content a) (content b) (content c)) as T.
  pose proof (proj2 C (content c) (content b) (content a)) as T'.
  pose proof (consistent_flip localeCompare (content a) (content b) C).
  pose proof (consistent_flip localeCompare (content b) (content c) C).
  pose proof (consistent_unflip localeCompare (content a) (content c) C).
  repeat match goal with
         | |- context [if String.eqb key ?k then _ else _] =>
             destruct (String.eqb key k)
         end; destruct direction; simpl; lia.
Qed.

(** ** The filters, one by one and together *)

Lemma runQuery_same (db : Database) (q1 q2 : Query) :
  (forall q, In q (runQuery rawMatches db q1)
             <-> In q (runQuery rawMatches db q2)) ->
  runQuery rawMatches db q1 = runQuery rawMatches db q2.
Proof.
  forget_unused.
  unfold runQuery. intros H. induction (quotes db) as [|x l IH]; simpl;
    [reflexivity|].
  assert (E : matches rawMatches db q1 x = matches rawMatches db q2 x).
  { specialize (H x). rewrite !filter_In in H. simpl in H.
    destruct (matches rawMatches db q1 x), (matches rawMatches db q2 x);
      try reflexivity; exfalso.
    - assert (T : false = true) by (apply H; auto). discriminate.
    - assert (T : false = true) by (apply H; auto). discriminate. }
  rewrite E. rewrite IH; [reflexivity|].
  intros q. specialize (H q). rewrite !filter_In in *. simpl in H.
  split; intros [Hq Hm]; split; try assumption.
  - apply H. auto.
  - apply H. auto.
Qed.

Lemma runQuery_filterLength (db : Database) (query : Query)
  (bound : Nullable Z) (direction : Direction) (q : Quote) :
  In q (runQuery rawMatches db (filterLength query bound direction))
  <-> In q (runQuery rawMatches db query) /\ lengthHolds bound direction q.
Proof.
  forget_unused.
  unfold filterLength, lengthHolds. destruct bound as [| |n]; try tauto.
  rewrite runQuery_addWhere. simpl.
  destruct direction; simpl; rewrite Z.leb_le; tauto.
Qed.

Lemma hasAuthor_related (db : Database) (q : Quote) (a : string) :
  existsb
    (fun r => evalCallback (authorColumn r) [SubWhere "name" a; SubOrWhere "slug" a])
    (relatedAuthor db q) = true
  <-> hasAuthor db q a.
Proof.
  forget_unused.
  unfold hasAuthor, relatedAuthor. rewrite existsb_exists. split.
  - intros [r [Hin He]]. apply filter_In in Hin. destruct Hin as [Hr Hk].
    apply Z.eqb_eq in Hk. exists r. split; [assumption|].
    split; [assumption|].
    change (sqlEq (author_name r) a || sqlEq (author_slug r) a = true) in He.
    apply orb_true_iff in He. unfold sqlEq in He.
    destruct He as [He|He]; apply String.eqb_eq in He; auto.
  - intros [r [Hr [Hk Hn]]]. exists r. split.
    + apply filter_In. split; [assumption|]. apply Z.eqb_eq. assumption.
    + change (sqlEq (author_name r) a || sqlEq (author_slug r) a = true).
      apply orb_true_iff. unfold sqlEq.
      destruct Hn as [Hn|Hn]; [left|right]; apply String.eqb_eq; assumption.
Qed.

Lemma runQuery_filterAuthor (db : Database) (query : Query)
  (author : Nullable string) (q : Quote) :
  In q (runQuery rawMatches db (filterAuthor query author))
  <-> In q (runQuery rawMatches db query) /\ authorHolds db author q.
Proof.
  forget_unused.
  unfold filterAuthor, authorHolds. destruct author as [| |a]; try tauto.
  rewrite runQuery_addWhere.
  change (evalClause rawMatches db q
            (WhereHas "author" [SubWhere "name" a; SubOrWhere "slug" a]))
    with (existsb
            (fun r => evalCallback (authorColumn r)
                        [SubWhere "name" a; SubOrWhere "slug" a])
            (relatedAuthor db q)).
  rewrite hasAuthor_related. tauto.
Qed.

Lemma runQuery_filterTags (db : Database) (query : Query)
  (tags : Nullable string) (q : Quote) :
  In q (runQuery rawMatches db (filterTags query tags))
  <-> In q (runQuery rawMatches db query) /\ tagsHold db tags q.
Proof.
  forget_unused.
  unfold filterTags, tagsHold. destruct tags as [| |s]; try tauto.
  destruct (includes s "|").
  - rewrite runQuery_addWhere, evalClause_tag_any by apply split_not_nil.
    tauto.
  - rewrite (runQuery_wheres_app db query _ _ q
               (wheres_fold_addWhere
                  (fun name => WhereHas "tags" [SubWhere "name" name])
                  (split s ",") query)).
    split; intros [Hq Hall]; (split; [assumption|]).
    + intros name Hn. apply evalClause_tag_all. apply Hall.
      apply in_map_iff. exists name. split; [reflexivity|assumption].
    + intros c Hc. apply in_map_iff in Hc. destruct Hc as [name [<- Hn]].
      apply evalClause_tag_all. apply Hall. assumption.
Qed.

Lemma runQuery_queryContent (db : Database) (query : Query)
  (search : Nullable string) (q : Quote) :
  In q (runQuery rawMatches db (queryContent query search))
  <-> In q (runQuery rawMatches db query) /\ searchHolds rawMatches search q.
Proof.
  forget_unused.
  unfold queryContent, searchHolds. destruct search as [| |s]; try tauto.
  rewrite runQuery_addWhere. simpl. tauto.
Qed.

(** X1: the author filter keeps the quotes whose author carries the
    given text as name or as slug, compared exactly; an undefined or
    null author leaves the query as it was. *)
Theorem filterAuthor_name_or_slug (db : Database) (query : Query)
  (a : string) (q : Quote) :
  (In q (runQuery rawMatches db (filterAuthor query (Val a)))
   <-> In q (runQuery rawMatches db query)
       /\ exists r, In r (authors db) /\ author_key r = author_id q
                    /\ (author_name r = a \/ author_slug r = a))
  /\ filterAuthor query Undefined = query
  /\ filterAuthor query Null = query.
Proof.
  forget_unused.
  split; [|split; reflexivity].
  apply (runQuery_filterAuthor db query (Val a) q).
Qed.

(** X2: the filter chain of the random reads keeps a quote exactly when
    every filter that is given holds of it: both length bounds, the
    author, the tags and the search; a filter left out asks nothing. *)
Theorem filtered_conjunction (db : Database) (query : Query)
  (input : GetRandomQuotesRequest) (q : Quote) :
  In q (runQuery rawMatches db (filtered query input))
  <-> In q (runQuery rawMatches db query)
      /\ lengthHolds (minLength input) GE q
      /\ lengthHolds (maxLength input) LE q
      /\ authorHolds db (author input) q
      /\ tagsHold db (tags_filter input) q
      /\ searchHolds rawMatches (query_text input) q.
Proof.
  forget_unused.
  unfold filtered.
  rewrite runQuery_queryContent, runQuery_filterTags, runQuery_filterAuthor,
    !runQuery_filterLength.
  tauto.
Qed.

(** X3: neither the order of the names in a tags string nor a name
    given twice changes the rows the tag filter selects. *)
Theorem filterTags_order_irrelevant (db : Database) (query : Query)
  (s1 s2 : string) :
  includes s1 "|" = includes s2 "|" ->
  (forall name, In name (tagNames s1) <-> In name (tagNames s2)) ->
  runQuery rawMatches db (filterTags query (Val s1))
  = runQuery rawMatches db (filterTags query (Val s2)).
Proof.
  forget_unused.
  intros E H. apply runQuery_same. intros q.
  rewrite !runQuery_filterTags. unfold tagsHold, tagNames in *. rewrite <- E in *.
  destruct (includes s1 "|").
  - split; intros [Hq [name [Hn Hh]]]; (split; [assumption|]);
      exists name; (split; [apply H; assumption|assumption]).
  - split; intros [Hq Hall]; (split; [assumption|]); intros name Hn;
      apply Hall; apply H; assumption.
Qed.

(** X4: for the same names, every quote the comma form selects is also
    selected by the pipe form. *)
Theorem filterTags_all_within_any (db : Database) (query : Query)
  (s1 s2 : string) (q : Quote) :
  includes s1 "|" = false -> includes s2 "|" = true ->
  split s1 "," = split s2 "|" ->
  In q (runQuery rawMatches db (filterTags query (Val s1))) ->
  In q (runQuery rawMatches db (filterTags query (Val s2))).
Proof.
  forget_unused.
  intros E1 E2 S. rewrite !runQuery_filterTags. unfold tagsHold.
  rewrite E1, E2, S. intros [Hq Hall]. split; [assumption|].
  pose proof (split_not_nil s2 "|") as N.
  destruct (split s2 "|") as [|name l]; [congruence|].
  exists name. split; [left; reflexivity|]. apply Hall. left. reflexivity.
Qed.

Lemma split_append_separator (s : string) (sep : ascii) :
  split (s ++ String sep EmptyString) sep
  = (split s sep ++ [EmptyString])%list.
Proof.
  forget_unused.
  induction s as [|a r IH]; simpl.
  - rewrite Ascii.eqb_refl. reflexivity.
  - destruct (Ascii.eqb a sep); rewrite IH; [reflexivity|].
    pose proof (split_not_nil r sep) as N.
    destruct (split r sep); [congruence|reflexivity].
Qed.

Lemma includes_append_other (s : string) (c d : ascii) :
  Ascii.eqb d c = false ->
  includes (s ++ String d EmptyString) c = includes s c.
Proof.
  forget_unused.
  intros E. induction s as [|a r IH]; simpl; [rewrite E; reflexivity|].
  destruct (Ascii.eqb a c); [reflexivity|exact IH].
Qed.

(** X5: an empty piece counts as a name: a tags string without a pipe
    that ends with a comma selects, among the quotes the string without
    that comma selects, only those that carry a tag with the empty name,
    and the empty tags string selects only such quotes. *)
Theorem filterTags_empty_piece (db : Database) (query : Query) (s : string)
  (q : Quote) :
  includes s "|" = false ->
  (In q (runQuery rawMatches db (filterTags query (Val (s ++ ","))))
   <-> In q (runQuery rawMatches db (filterTags query (Val s)))
       /\ hasTag db q "")
  /\ (In q (runQuery rawMatches db (filterTags query (Val "")))
      <-> In q (runQuery rawMatches db query) /\ hasTag db q "").
Proof.
  forget_unused.
  intros E. rewrite !runQuery_filterTags. unfold tagsHold.
  rewrite (includes_append_other s "|" "," eq_refl), E.
  rewrite split_append_separator. simpl. split.
  - split.
    + intros [Hq Hall]. split; [split; [assumption|]|].
      * intros name Hn. apply Hall. apply in_or_app. left. assumption.
      * apply Hall. apply in_or_app. right. left. reflexivity.
    + intros [[Hq Hall] He]. split; [assumption|]. intros name Hn.
      apply in_app_or in Hn. destruct Hn as [Hn|[<-|[]]]; auto.
  - split.
    + intros [Hq Hall]. split; [assumption|]. apply Hall. left. reflexivity.
    + intros [Hq He]. split; [assumption|]. intros name [<-|[]]. assumption.
Qed.

(** X6: a lower bound above the upper bound is no error: the two length
    filters together select no quote at all. *)
Theorem filterLength_crossed_bounds (db : Database) (query : Query)
  (m M : Z) :
  M < m ->
  runQuery rawMatches db
    (filterLength (filterLength query (Val m) GE) (Val M) LE) = [].
Proof.
  forget_unused.
  intros H.
  destruct (runQuery rawMatches db
              (filterLength (filterLength query (Val m) GE) (Val M) LE))
    as [|q l] eqn:E; [reflexivity|].
  assert (Hin : In q (runQuery rawMatches db
                        (filterLength (filterLength query (Val m) GE)
                           (Val M) LE)))
    by (rewrite E; left; reflexivity).
  rewrite !runQuery_filterLength in Hin. simpl in Hin. lia.
Qed.



(** ** Lookups and inserts *)

Lemma unique_id (l : list Quote) (q q' : Quote) :
  NoDup (map id l) -> In q l -> In q' l -> id q = id q' -> q = q'.
Proof.
  forget_unused.
  induction l as [|x l IH]; simpl; intros N H H' E; [contradiction|].
  inversion N as [|? ? Hx Hl]; subst.
  destruct H as [->|H], H' as [->|H']; auto.
  - exfalso. apply Hx. rewrite E. apply in_map. assumption.
  - exfalso. apply Hx. rewrite <- E. apply in_map. assumption.
Qed.

Lemma stored_unique (db : Database) (q : Quote) :
  NoDup (map id (quotes db)) -> In q (quotes db) -> stored db (id q) = Some q.
Proof.
  forget_unused.
  intros N H.
  destruct (stored_some db (id q) (ex_intro _ q (conj H eq_refl)))
    as [q' [S [H' E]]].
  rewrite S. f_equal. apply (unique_id (quotes db)); assumption.
Qed.

Lemma filter_keeps_unique_ids (keep : Quote -> bool) (rows : list Quote) :
  NoDup (map id rows) -> NoDup (map id (filter keep rows)).
Proof.
  forget_unused.
  induction rows as [|x rows IH]; simpl; intros N; [constructor|].
  inversion N as [|? ? Hx Hl]; subst.
  destruct (keep x); simpl; [|auto]. constructor; [|auto].
  intros C. apply Hx. apply in_map_iff in C. destruct C as [y [E Hy]].
  apply filter_In in Hy. apply in_map_iff. exists y. tauto.
Qed.

Lemma runQuery_byIds (db : Database) (query : Query) (ids : list Z) :
  wheres query = [WhereInId ids] ->
  runQuery rawMatches db query
  = filter (fun q => existsb (Z.eqb (id q)) ids) (quotes db).
Proof.
  forget_unused.
  intros E. unfold runQuery, matches. rewrite E. apply filter_ext.
  intros q. simpl. apply andb_true_r.
Qed.

(** X8: when the ids are unique, [getById] returns the quote of that id
    whatever the options are: [findOrFail] and [withRelations] change
    nothing for an id that exists, and the tables stay as they were. *)
Theorem getById_returns_the_quote (q : Quote) (options : GetByIdOptions)
  (w : World) :
  NoDup (map id (quotes (database w))) ->
  In q (quotes (database w)) ->
  fst (getById (id q) options w) = Return (Some q)
  /\ database (snd (getById (id q) options w)) = database w.
Proof.
  forget_unused.
  intros N H. destruct (getById_run (id q) options w) as [query [_ [_ E]]].
  rewrite E, (stored_unique _ _ N H). split; reflexivity.
Qed.

(** X9: [getByIds] returns exactly the stored quotes whose id is among
    the ids asked for and fails on none that is missing; when the ids of
    the table are unique it returns at most one quote per id asked
    for. *)
Theorem getByIds_rows (ids : list Z) (options : ReadOptions) (w : World) :
  NoDup (map id (quotes (database w))) ->
  exists rows,
    fst (getByIds ids options w) = Return rows
    /\ (forall q, In q rows <-> In q (quotes (database w)) /\ In (id q) ids)
    /\ NoDup (map id rows)
    /\ (List.length rows <= List.length ids)%nat
    /\ database (snd (getByIds ids options w)) = database w.
Proof.
  forget_unused.
  intros N. unfold getByIds, select.
  set (base := addWhere (newQuery (read_transaction options)) (WhereInId ids)).
  assert (W : wheres (if withDefault (read_withRelations options) true
                      then withScopes base else base) = [WhereInId ids])
    by (destruct (withDefault _ _); reflexivity).
  rewrite (runQuery_byIds _ _ _ W). simpl.
  eexists. split; [reflexivity|].
  assert (M : forall q,
             In q (filter (fun q => existsb (Z.eqb (id q)) ids)
                     (quotes (database w)))
             <-> In q (quotes (database w)) /\ In (id q) ids).
  { intros q. rewrite filter_In, existsb_exists. split.
    - intros [H [k [Hk E]]]. apply Z.eqb_eq in E. subst k. auto.
    - intros [H Hk]. split; [assumption|]. exists (id q).
      split; [assumption|apply Z.eqb_refl]. }
  split; [exact M|].
  assert (D : NoDup (map id (filter (fun q => existsb (Z.eqb (id q)) ids)
                               (quotes (database w)))))
    by (apply filter_keeps_unique_ids; exact N).
  split; [exact D|]. split; [|reflexivity].
  rewrite <- (length_map id). apply NoDup_incl_length; [exact D|].
  intros k Hk. apply in_map_iff in Hk. destruct Hk as [q [<- Hq]].
  apply M in Hq. tauto.
Qed.

(** X10: whatever is stored already, when the insert goes through
    [createMultiple] returns every stored quote that has one of the
    contents of the input, those stored before followed by the new ones,
    so at least as many rows as the input; it is what [getByContents]
    finds for these contents right after, through the same client. *)
Theorem createMultiple_returns_all_with_contents
  (input : list NewQuoteSchema) (options : WriteOptions)
  (withRelations : option bool) (w : World) :
  failure (InsertBatch (clientOf (transaction options)) Quote_table input)
  = None ->
  exists rows w',
    createMultiple input options w = (Return rows, w')
    /\ rows
       = (filter
            (fun q => existsb (String.eqb (content q)) (map new_content input))
            (quotes (database w))
          ++ insertedRows (nextId w) (clock w) input)%list
    /\ (List.length input <= List.length rows)%nat
    /\ fst (getByContents (map new_content input)
              (mkReadOptions withRelations (transaction options)) w')
       = Return rows.
Proof.
  forget_unused.
  intros F.
  set (contents := map new_content input).
  set (picked := fun q : Quote => existsb (String.eqb (content q)) contents).
  assert (R1 : forall t db,
             runQuery rawMatches db
               (addWhere (newQuery t) (WhereInContent contents))
             = filter picked (quotes db))
    by (intros t db; apply runQuery_byContents; reflexivity).
  assert (R2 : forall t db,
             runQuery rawMatches db
               (if withDefault withRelations true
                then withScopes (addWhere (newQuery t) (WhereInContent contents))
                else addWhere (newQuery t) (WhereInContent contents))
             = filter picked (quotes db))
    by (intros t db; apply runQuery_byContents;
        destruct (withDefault withRelations true); reflexivity).
  assert (A : filter picked (insertedRows (nextId w) (clock w) input)
              = insertedRows (nextId w) (clock w) input).
  { apply filter_all. intros q Hq. apply existsb_exists. exists (content q).
    split; [|apply String.eqb_refl].
    destruct (insertedRows_columns (nextId w) (clock w) input) as [C _].
    unfold contents. rewrite <- C. apply in_map. assumption. }
  assert (L : (List.length input
               <= List.length
                    (filter picked (quotes (database w))
                     ++ insertedRows (nextId w) (clock w) input))%nat).
  { rewrite length_app.
    destruct (insertedRows_columns (nextId w) (clock w) input) as [_ [_ L]].
    rewrite L. lia. }
  unfold getByContents. unfold createMultiple, bind, execute, select.
  destruct options as [[t|]]; cbn [transaction clientOf] in *; rewrite F;
    cbv beta iota; fold contents; rewrite R1;
    (eexists; eexists; split; [reflexivity|]);
    cbn [read_withRelations read_transaction fst]; fold contents;
    rewrite R2;
    cbn [applyWrite record database quotes setQuotes nextId clock];
    rewrite filter_app, A; auto.
Qed.

(** X11: when the database refuses the insert, [createMultiple] throws
    that error: nothing is stored, and the rows are not read back, the
    insert being the one statement sent. *)
Theorem createMultiple_insert_refused (input : list NewQuoteSchema)
  (options : WriteOptions) (w : World) (e : Error) :
  failure (InsertBatch (clientOf (transaction options)) Quote_table input)
  = Some e ->
  exists w',
    createMultiple input options w = (Throw e, w')
    /\ database w' = database w
    /\ journal w'
       = (journal w
          ++ [Executed
                (InsertBatch (clientOf (transaction options)) Quote_table
                   input)])%list.
Proof.
  forget_unused.
  intros F. unfold createMultiple, bind, execute.
  destruct options as [[t|]]; cbn [transaction clientOf] in *; rewrite F;
    eexists; split; reflexivity || (repeat split; reflexivity).
Qed.

(** X12: round trip: on a table with auto-increment ids, when the insert
    goes through [create] returns a quote with the content and the
    author of the input under a new id, [getById] of that id then returns
    that very quote, and every other id is looked up as before. *)
Theorem create_then_getById (input : NewQuoteSchema) (options : WriteOptions)
  (lookup : GetByIdOptions) (w : World) :
  wellKeyed w ->
  failure (InsertBatch (clientOf (transaction options)) Quote_table [input])
  = None ->
  exists q w',
    create input options w = (Return q, w')
    /\ content q = new_content input
    /\ author_id q = new_author_id input
    /\ (forall old, In old (quotes (database w)) -> id old <> id q)
    /\ fst (getById (id q) lookup w') = Return (Some q)
    /\ (forall key, key <> id q ->
                    stored (database w') key = stored (database w) key)
    /\ wellKeyed w'.
Proof.
  forget_unused.
  intros [N B] F. unfold create, execute. rewrite F.
  eexists. eexists. split; [reflexivity|].
  split; [reflexivity|]. split; [reflexivity|].
  split; [intros old H; simpl; specialize (B old H); lia|].
  assert (Old : filter (fun r => id r =? nextId w) (quotes (database w)) = []).
  { apply filter_none. intros r Hr. apply Z.eqb_neq. specialize (B r Hr). lia. }
  split; [|split].
  - match goal with
    | |- fst (getById ?k ?o ?x) = _ =>
        destruct (getById_run k o x) as [query [_ [_ E]]]; rewrite E
    end.
    unfold stored. simpl. rewrite filter_app, Old. simpl.
    rewrite Z.eqb_refl. reflexivity.
  - intros key K. unfold stored. simpl. rewrite filter_app. simpl.
    simpl in K. destruct (nextId w =? key) eqn:E.
    + apply Z.eqb_eq in E. congruence.
    + rewrite app_nil_r. reflexivity.
  - split; simpl.
    + rewrite map_app. simpl. apply NoDup_app; [exact N|repeat constructor; auto|].
      intros k Hk [<-|[]]. apply in_map_iff in Hk.
      destruct Hk as [r [E Hr]]. specialize (B r Hr). lia.
    + intros r Hr. apply in_app_or in Hr. destruct Hr as [Hr|[<-|[]]].
      * specialize (B r Hr). lia.
      * simpl. lia.
Qed.

(** ** Deleting, in the repository and in the service *)

(** X13: on an existing quote, when the delete goes through, the
    repository's [delete] returns the quote and removes the quotes of
    that id and nothing else: a later lookup finds none, the quotes of
    another id are all there, and the join table still holds the tag
    associations of the deleted quote, which the repository alone does
    not detach; tags and authors are untouched. *)
Theorem delete_removes_only_the_quote (key : Z) (options : WriteOptions)
  (w : World) :
  (exists q, In q (quotes (database w)) /\ id q = key) ->
  failure (DeleteRow (clientOf (transaction options)) key) = None ->
  exists q w',
    delete key options w = (Return (Some q), w')
    /\ In q (quotes (database w)) /\ id q = key
    /\ quotes (database w')
       = filter (fun r => negb (id r =? key)) (quotes (database w))
    /\ (forall lookup,
          fst (getById key lookup w')
          = if withDefault (findOrFail lookup) true
            then Throw E_ROW_NOT_FOUND else Return None)
    /\ quote_tag (database w') = quote_tag (database w)
    /\ tags (database w') = tags (database w)
    /\ authors (database w') = authors (database w).
Proof.
  forget_unused.
  intros H F. destruct (stored_some _ _ H) as [q [S [Hin K]]].
  destruct (delete_run key options w) as [query [_ E]].
  rewrite E, S. cbv zeta. rewrite K, F.
  exists q. eexists. split; [reflexivity|].
  split; [assumption|]. split; [assumption|].
  split; [reflexivity|]. split; [|repeat split].
  intros lookup.
  match goal with
  | |- fst (getById ?k ?o ?x) = _ =>
      destruct (getById_run k o x) as [query' [_ [_ E']]]; rewrite E'
  end.
  simpl. rewrite (deleteRow_stored (database w) key). reflexivity.
Qed.

(** X14: when the database refuses the delete of an existing quote,
    the repository's [delete] throws that error and the tables are as
    before. *)
Theorem delete_refused (key : Z) (options : WriteOptions) (w : World)
  (e : Error) :
  (exists q, In q (quotes (database w)) /\ id q = key) ->
  failure (DeleteRow (clientOf (transaction options)) key) = Some e ->
  fst (delete key options w) = Throw e
  /\ database (snd (delete key options w)) = database w.
Proof.
  forget_unused.
  intros H F. destruct (stored_some _ _ H) as [q [S [Hin K]]].
  destruct (delete_run key options w) as [query [_ E]].
  rewrite E, S. cbv zeta. rewrite K, F. split; reflexivity.
Qed.

Lemma handle_missing (key : Z) (w : World) :
  savepoint w = None ->
  stored (database w) key = None ->
  exists query,
    wheres query = [WhereId key]
    /\ handle key w
       = (Throw E_ROW_NOT_FOUND,
          mkWorld (database w) (Some (database w))
            (journal w
             ++ [BeginGlobalTransaction; Executed (Select query);
                 RollbackGlobalTransaction])
            (nextId w) (clock w) (seed w)
            (pending w ++ [DeferredRollback])).
Proof.
  forget_unused.
  intros Open S. unfold handle.
  destruct (delete_run key (mkWriteOptions None) (beginGlobalTransaction w))
    as [query [W E]].
  exists query. split; [exact W|].
  unfold bind at 1. rewrite E. clear E.
  unfold beginGlobalTransaction. rewrite Open.
  change (database (record BeginGlobalTransaction
                      (mkWorld (database w) (Some (database w)) (journal w)
                         (nextId w) (clock w) (seed w) (pending w))))
    with (database w).
  rewrite S. unfold rollbackGlobalTransaction, defer, record. simpl.
  rewrite <- !app_assoc. reflexivity.
Qed.

Lemma handle_success (key : Z) (w : World) (q : Quote) :
  savepoint w = None ->
  stored (database w) key = Some q ->
  failure (DeleteRow DefaultConnection key) = None ->
  failure (DetachAll DefaultConnection "tags" key) = None ->
  exists w',
    handle key w = (Return (Some q), w')
    /\ database w' = detachAll key (deleteRow key (database w))
    /\ savepoint w' = Some (database w)
    /\ pending w' = (pending w ++ [DeferredCommit])%list.
Proof.
  forget_unused.
  intros Open S F1 F2. unfold handle.
  destruct (delete_run key (mkWriteOptions None) (beginGlobalTransaction w))
    as [query [W E]].
  unfold bind at 1. rewrite E. clear E.
  unfold beginGlobalTransaction. rewrite Open.
  change (database (record BeginGlobalTransaction
                      (mkWorld (database w) (Some (database w)) (journal w)
                         (nextId w) (clock w) (seed w) (pending w))))
    with (database w).
  rewrite S. destruct (stored_id _ _ _ S) as [K _].
  cbn [transaction clientOf]. cbv zeta. rewrite K, F1.
  unfold bind, detachTags, execute, ret. rewrite K, F2.
  eexists. split; [reflexivity|]. repeat split.
Qed.

Lemma settle_commit (w : World) :
  pending w = [DeferredCommit] ->
  database (settle w) = database w
  /\ savepoint (settle w) = None
  /\ pending (settle w) = [].
Proof.
  forget_unused.
  intros P. unfold settle. rewrite P. repeat split.
Qed.

(** X15: for an id that no quote has, [handle] throws the not-found
    error after the lookup alone: between begin and rollback no delete
    and no detach is sent, and the tables are as before. *)
Theorem handle_missing_id (key : Z) (w : World) :
  savepoint w = None ->
  (forall q, In q (quotes (database w)) -> id q <> key) ->
  exists query w',
    handle key w = (Throw E_ROW_NOT_FOUND, w')
    /\ wheres query = [WhereId key]
    /\ journal w'
       = (journal w
          ++ [BeginGlobalTransaction; Executed (Select query);
              RollbackGlobalTransaction])%list
    /\ database w' = database w.
Proof.
  forget_unused.
  intros Open H.
  destruct (handle_missing key w Open (stored_none _ _ H)) as [query [W E]].
  exists query. eexists. split; [exact E|]. repeat split. exact W.
Qed.

Lemma deleteRow_other (db : Database) (key other : Z) :
  other <> key ->
  stored (detachAll key (deleteRow key db)) other = stored db other.
Proof.
  forget_unused.
  intros O. unfold stored, detachAll, deleteRow. simpl. f_equal.
  induction (quotes db) as [|r l IH]; simpl; [reflexivity|].
  destruct (id r =? key) eqn:A; simpl.
  - destruct (id r =? other) eqn:B; [|exact IH].
    apply Z.eqb_eq in A, B. congruence.
  - rewrite IH. reflexivity.
Qed.

Lemma detachAll_other (db : Database) (key : Z) (r : Quote) :
  id r <> key ->
  relatedTags (detachAll key (deleteRow key db)) r = relatedTags db r.
Proof.
  forget_unused.
  intros R. unfold relatedTags, detachAll, deleteRow. simpl.
  apply filter_ext. intros t.
  induction (quote_tag db) as [|p l IH]; simpl; [reflexivity|].
  destruct (fst p =? key) eqn:A; simpl.
  - rewrite IH. destruct (fst p =? id r) eqn:B; [|reflexivity].
    apply Z.eqb_eq in A, B. congruence.
  - rewrite IH. reflexivity.
Qed.

(** X16: [handle] returns the deleted quote with its commit requested
    and not yet done: the transaction is still registered and the
    commit is the one thing pending.  Once that commit is done the
    transaction is closed and only the deleted quote was touched: the
    other quotes are stored as before and are found by id as before,
    each of them has the tags it had, and no tag and no author is
    removed. *)
Theorem handle_keeps_the_rest (key : Z) (w : World) :
  savepoint w = None ->
  pending w = [] ->
  (exists q, In q (quotes (database w)) /\ id q = key) ->
  failure (DeleteRow DefaultConnection key) = None ->
  failure (DetachAll DefaultConnection "tags" key) = None ->
  exists q w',
    handle key w = (Return (Some q), w')
    /\ savepoint w' = Some (database w)
    /\ pending w' = [DeferredCommit]
    /\ savepoint (settle w') = None
    /\ pending (settle w') = []
    /\ quotes (database (settle w'))
       = filter (fun r => negb (id r =? key)) (quotes (database w))
    /\ (forall other, other <> key ->
                      stored (database (settle w')) other
                      = stored (database w) other)
    /\ (forall r, id r <> key ->
                  relatedTags (database (settle w')) r
                  = relatedTags (database w) r)
    /\ tags (database (settle w')) = tags (database w)
    /\ authors (database (settle w')) = authors (database w).
Proof.
  forget_unused.
  intros Open Idle H F1 F2. destruct (stored_some _ _ H) as [q [S _]].
  destruct (handle_success key w q Open S F1 F2) as [w' [E [D [O P]]]].
  rewrite Idle in P. simpl in P.
  destruct (settle_commit w' P) as [D' [O' P']].
  exists q, w'. split; [exact E|]. rewrite D', D.
  repeat (split; [assumption || reflexivity|]).
  split; [|split; [|split; reflexivity]].
  - intros other O2. apply deleteRow_other. exact O2.
  - intros r R. apply detachAll_other. exact R.
Qed.

(** X17: once the commit that a successful [handle] requested is done,
    a second [handle] of the same id throws the not-found error, and
    when the rollback it requests is done in its turn the tables are
    as the first call left them. *)
Theorem handle_twice (key : Z) (w : World) :
  savepoint w = None ->
  pending w = [] ->
  (exists q, In q (quotes (database w)) /\ id q = key) ->
  failure (DeleteRow DefaultConnection key) = None ->
  failure (DetachAll DefaultConnection "tags" key) = None ->
  exists q w',
    handle key w = (Return (Some q), w')
    /\ fst (handle key (settle w')) = Throw E_ROW_NOT_FOUND
    /\ database (snd (handle key (settle w'))) = database (settle w')
    /\ database (settle (snd (handle key (settle w'))))
       = database (settle w')
    /\ savepoint (settle (snd (handle key (settle w')))) = None.
Proof.
  forget_unused.
  intros Open Idle H F1 F2. destruct (stored_some _ _ H) as [q [S _]].
  destruct (handle_success key w q Open S F1 F2) as [w' [E [D [O P]]]].
  rewrite Idle in P. simpl in P.
  destruct (settle_commit w' P) as [D' [O' P']].
  exists q, w'. split; [exact E|].
  assert (S' : stored (database (settle w')) key = None)
    by (rewrite D', D; apply (deleteRow_stored (database w) key)).
  destruct (handle_missing key (settle w') O' S') as [query [_ E']].
  rewrite E'. cbn [fst snd database]. rewrite P'.
  split; [reflexivity|]. split; [reflexivity|].
  unfold settle. simpl. unfold rolledBack. simpl. split; reflexivity.
Qed.

(** C1: [handle] does not await the rollback it asks for.  When the
    quote exists, the delete goes through and the detach of its tags is
    refused, [handle] throws the error of the detach unchanged, after the
    lookup, the delete and the detach were sent in that order and no
    commit was asked for; but when that error reaches the caller the
    rollback is only requested: the transaction is still registered with
    the tables it started from, and in the tables as they stand the
    quote is deleted. *)
Theorem handle_rollback_not_awaited (key : Z) (w : World) (e : Error) :
  savepoint w = None ->
  (exists q, In q (quotes (database w)) /\ id q = key) ->
  failure (DeleteRow DefaultConnection key) = None ->
  failure (DetachAll DefaultConnection "tags" key) = Some e ->
  exists query w',
    handle key w = (Throw e, w')
    /\ wheres query = [WhereId key]
    /\ journal w'
       = (journal w
          ++ [BeginGlobalTransaction; Executed (Select query);
              Executed (DeleteRow DefaultConnection key);
              Executed (DetachAll DefaultConnection "tags" key);
              RollbackGlobalTransaction])%list
    /\ pending w' = (pending w ++ [DeferredRollback])%list
    /\ savepoint w' = Some (database w)
    /\ database w' = deleteRow key (database w)
    /\ stored (database w') key = None
    /\ stored (database w) key <> None.
Proof.
  forget_unused.
  intros Open H F1 F2. destruct (stored_some _ _ H) as [q [S _]].
  unfold handle.
  destruct (delete_run key (mkWriteOptions None) (beginGlobalTransaction w))
    as [query [W E]].
  exists query. eexists.
  unfold bind at 1. rewrite E. clear E.
  unfold beginGlobalTransaction. rewrite Open.
  change (database (record BeginGlobalTransaction
                      (mkWorld (database w) (Some (database w)) (journal w)
                         (nextId w) (clock w) (seed w) (pending w))))
    with (database w).
  rewrite S. destruct (stored_id _ _ _ S) as [K _].
  cbn [transaction clientOf]. cbv zeta. rewrite K, F1.
  unfold bind, detachTags, execute, ret. rewrite K, F2.
  split; [reflexivity|]. split; [exact W|].
  unfold rollbackGlobalTransaction, defer, record. simpl.
  rewrite <- !app_assoc.
  repeat (split; [reflexivity|]).
  split; [apply deleteRow_stored|discriminate].
Qed.

(** ** Update, and the keys *)

Lemma merge_same (q : Quote) : merge q (content q) = q.
Proof. forget_unused. destruct q. reflexivity. Qed.

Lemma saveRow_same (q : Quote) (now : Z) (db : Database) :
  NoDup (map id (quotes db)) -> In q (quotes db) ->
  quotes (saveRow q now db) = quotes db.
Proof.
  forget_unused.
  intros N H. unfold saveRow. simpl.
  rewrite <- (map_id (quotes db)) at 2. apply map_ext_in.
  intros r Hr. destruct (id r =? id q) eqn:E; [|reflexivity].
  apply Z.eqb_eq in E.
  rewrite (unique_id (quotes db) r q N Hr H E).
  rewrite String.eqb_refl. reflexivity.
Qed.

Lemma database_same_quotes (db db' : Database) :
  quotes db' = quotes db -> authors db' = authors db -> tags db' = tags db ->
  quote_tag db' = quote_tag db -> db' = db.
Proof. forget_unused. destruct db, db'. simpl. intros -> -> -> ->. reflexivity. Qed.

(** X18: [update] does not wait for the save: when the database
    refuses it, [update] still returns the quote with the new content and
    throws nothing, while the tables keep the old content.  The save is
    left pending, and the tables still keep the old content after it
    was tried and refused. *)
Theorem update_save_refused (key : Z) (input : UpdateQuoteRequest)
  (options : WriteOptions) (w : World) :
  (exists q, In q (quotes (database w)) /\ id q = key) ->
  (forall row,
     failure (SaveRow (clientOf (transaction options)) row) <> None) ->
  exists q q',
    In q (quotes (database w)) /\ id q = key
    /\ fst (update key input options w) = Return (Some q')
    /\ q' = merge q (nullish (input_content input) (content q))
    /\ database (snd (update key input options w)) = database w
    /\ pending (snd (update key input options w))
       = (pending w
          ++ [DeferredStatement (SaveRow (clientOf (transaction options)) q')])%list
    /\ database
         (settleOne (snd (update key input options w))
            (DeferredStatement (SaveRow (clientOf (transaction options)) q')))
       = database w.
Proof.
  forget_unused.
  intros H F. destruct (stored_some _ _ H) as [q [S [Hin K]]].
  exists q, (merge q (nullish (input_content input) (content q))).
  split; [assumption|]. split; [assumption|].
  unfold update, bind.
  destruct (getById_run key (mkGetByIdOptions None None (transaction options)) w)
    as [query [_ [_ E]]].
  rewrite E, S. unfold executeDetached, ret. cbn [fst snd].
  repeat (split; [reflexivity|]).
  unfold settleOne.
  destruct (failure
              (SaveRow (clientOf (transaction options))
                 (merge q (nullish (input_content input) (content q)))))
    eqn:R; [reflexivity|].
  exfalso. exact (F _ R).
Qed.

(** X19: when the ids are unique, an [update] whose input has no
    content, undefined or null, returns the stored quote and leaves the
    tables exactly as they were, whether the save goes through or not:
    they are as they were when [update] returns and after the pending
    save was tried. *)
Theorem update_without_content (q : Quote) (input : UpdateQuoteRequest)
  (options : WriteOptions) (w : World) :
  NoDup (map id (quotes (database w))) ->
  In q (quotes (database w)) ->
  input_content input = Undefined \/ input_content input = Null ->
  fst (update (id q) input options w) = Return (Some q)
  /\ database (snd (update (id q) input options w)) = database w
  /\ database
       (settleOne (snd (update (id q) input options w))
          (DeferredStatement (SaveRow (clientOf (transaction options)) q)))
     = database w.
Proof.
  forget_unused.
  intros N H C. unfold update, bind.
  destruct (getById_run (id q)
              (mkGetByIdOptions None None (transaction options)) w)
    as [query [_ [_ E]]].
  rewrite E, (stored_unique _ _ N H).
  assert (Q : merge q (nullish (input_content input) (content q)) = q)
    by (destruct C as [-> | ->]; apply merge_same).
  rewrite Q. unfold executeDetached, ret. cbn [fst snd].
  split; [reflexivity|]. split; [reflexivity|].
  unfold settleOne.
  destruct (failure (SaveRow (clientOf (transaction options)) q));
    simpl; try reflexivity.
  apply database_same_quotes; try reflexivity.
  apply (saveRow_same q (clock w) (database w) N H).
Qed.

Lemma wellKeyed_ids (w w' : World) :
  wellKeyed w ->
  map id (quotes (database w')) = map id (quotes (database w)) ->
  nextId w' = nextId w ->
  wellKeyed w'.
Proof.
  forget_unused.
  intros [N B] E I. split; [rewrite E; exact N|].
  intros q Hq. rewrite I.
  assert (Hk : In (id q) (map id (quotes (database w))))
    by (rewrite <- E; apply in_map; exact Hq).
  apply in_map_iff in Hk. destruct Hk as [r [<- Hr]]. auto.
Qed.

Lemma wellKeyed_filter (w w' : World) (p : Quote -> bool) :
  wellKeyed w ->
  quotes (database w') = filter p (quotes (database w)) ->
  nextId w' = nextId w ->
  wellKeyed w'.
Proof.
  forget_unused.
  intros [N B] E I. split; rewrite E.
  - apply filter_keeps_unique_ids. exact N.
  - intros q Hq. apply filter_In in Hq. rewrite I. apply B. tauto.
Qed.

Lemma insertedRows_ids (next now : Z) (input : list NewQuoteSchema) :
  NoDup (map id (insertedRows next now input))
  /\ forall q, In q (insertedRows next now input) ->
               next <= id q < next + Z.of_nat (List.length input).
Proof.
  forget_unused.
  revert next. induction input as [|r rs IH]; intros next.
  - split; [constructor|intros q []].
  - destruct (IH (next + 1)) as [N B]. split.
    + simpl. constructor; [|exact N]. intros C. apply in_map_iff in C.
      destruct C as [q [E Hq]]. specialize (B q Hq). lia.
    + intros q [<-|Hq].
      * simpl. lia.
      * specialize (B q Hq). simpl List.length. lia.
Qed.

Lemma saveRow_ids (row : Quote) (now : Z) (db : Database) :
  map id (quotes (saveRow row now db)) = map id (quotes db).
Proof.
  forget_unused.
  unfold saveRow. simpl. rewrite map_map. apply map_ext.
  intros r. destruct (id r =? id row); [|reflexivity].
  destruct (String.eqb (content r) (content row)); reflexivity.
Qed.

Lemma applyWrite_keeps_keys (s : Statement) (w : World) :
  wellKeyed w -> wellKeyed (applyWrite s w).
Proof.
  forget_unused.
  intros K. destruct s as [query|query n|c table rows|c row|c key|c relation key];
    try (apply (wellKeyed_ids w); [exact K|reflexivity|reflexivity]).
  - destruct K as [N B].
    destruct (insertedRows_ids (nextId w) (clock w) rows) as [N' B'].
    split; simpl.
    + rewrite map_app. apply NoDup_app; [exact N|exact N'|].
      intros k Hk Hk'. apply in_map_iff in Hk, Hk'.
      destruct Hk as [r [<- Hr]]. destruct Hk' as [r' [E Hr']].
      specialize (B r Hr). specialize (B' r' Hr'). lia.
    + intros q Hq. apply in_app_or in Hq. destruct Hq as [Hq|Hq].
      * specialize (B q Hq). lia.
      * specialize (B' q Hq). lia.
  - apply (wellKeyed_ids w); [exact K|apply saveRow_ids|reflexivity].
  - apply (wellKeyed_filter w _ (fun r => negb (id r =? key)));
      [exact K|reflexivity|reflexivity].
Qed.

Lemma execute_keeps_keys (s : Statement) (w : World) :
  wellKeyed w -> wellKeyed (snd (execute s w)).
Proof.
  forget_unused.
  intros K. unfold execute. destruct (failure s); simpl.
  - apply (wellKeyed_ids w); [exact K|reflexivity|reflexivity].
  - apply applyWrite_keeps_keys.
    apply (wellKeyed_ids w); [exact K|reflexivity|reflexivity].
Qed.

(** X20: the writes of the repository keep the ids a primary key with
    auto-increment: from a table where no two quotes share an id and the
    counter is beyond every id, [createMultiple], [update] and [delete]
    lead to such a table again, whether they return or throw; so does
    the save that [update] leaves pending, when it is done. *)
Theorem writes_keep_keys (input : list NewQuoteSchema) (key : Z)
  (change : UpdateQuoteRequest) (options : WriteOptions) (w : World) :
  wellKeyed w ->
  wellKeyed (snd (createMultiple input options w))
  /\ wellKeyed (snd (update key change options w))
  /\ wellKeyed (snd (delete key options w))
  /\ forall row,
       wellKeyed
         (settleOne (snd (update key change options w))
            (DeferredStatement (SaveRow (clientOf (transaction options)) row))).
Proof.
  forget_unused.
  intros K.
  assert (U : wellKeyed (snd (update key change options w))).
  { unfold update, bind.
    destruct (getById_run key (mkGetByIdOptions None None (transaction options)) w)
      as [query [_ [_ E]]].
    rewrite E. destruct (stored (database w) key) as [q|]; simpl;
      apply (wellKeyed_ids w); try exact K; reflexivity. }
  split; [|split; [exact U|split]].
  - unfold createMultiple, bind, select.
    destruct options as [[t|]]; cbn [transaction].
    + pose proof (execute_keeps_keys (InsertBatch (Transaction t) Quote_table input) w K) as G.
      destruct (execute (InsertBatch (Transaction t) Quote_table input) w)
        as [[u|e] w1]; simpl in *; [|exact G].
      apply (wellKeyed_ids _ _ G); reflexivity.
    + pose proof (execute_keeps_keys (InsertBatch DefaultConnection Quote_table input) w K) as G.
      destruct (execute (InsertBatch DefaultConnection Quote_table input) w)
        as [[u|e] w1]; simpl in *; [|exact G].
      apply (wellKeyed_ids _ _ G); reflexivity.
  - destruct (delete_run key options w) as [query [_ E]]. rewrite E.
    destruct (stored (database w) key) as [q|].
    + cbv zeta. destruct (failure _); simpl.
      * apply (wellKeyed_ids w); [exact K|reflexivity|reflexivity].
      * apply (wellKeyed_filter w _ (fun r => negb (id r =? id q)));
          [exact K|reflexivity|reflexivity].
    + simpl. apply (wellKeyed_ids w); [exact K|reflexivity|reflexivity].
  - intros row. unfold settleOne. destruct (failure _).
    + apply (wellKeyed_ids _ _ U); reflexivity.
    + apply applyWrite_keeps_keys.
      apply (wellKeyed_ids _ _ U); reflexivity.
Qed.

(** ** The random reads *)

Lemma sort_all_equal {A : Type} (cmp : A -> A -> Z) (l : list A) :
  (forall a b, cmp a b = 0) -> sort cmp l = l.
Proof.
  forget_unused.
  intros H. induction l as [|x l IH]; simpl; [reflexivity|].
  fold (sort cmp l). rewrite IH. destruct l as [|h t]; simpl; [reflexivity|].
  rewrite H. reflexivity.
Qed.

Lemma comparator_unsortable (key : string) (direction : OrderEnum)
  (a b : Quote) :
  sortable key = false -> comparator localeCompare key direction a b = 0.
Proof.
  forget_unused.
  unfold sortable, comparator, property. simpl. intros H.
  destruct (String.eqb key "id"); [discriminate|].
  destruct (String.eqb key "content"); [discriminate|].
  destruct (String.eqb key "author_id"); [discriminate|].
  destruct (String.eqb key "created_at"); [discriminate|].
  destruct (String.eqb key "updated_at"); [discriminate|].
  destruct direction; reflexivity.
Qed.

Lemma comparator_sortable (key : string) (direction : OrderEnum)
  (a b : Quote) :
  sortable key = true ->
  notAfter (comparator localeCompare key direction) a b ->
  precedes localeCompare direction (property a key) (property b key).
Proof.
  forget_unused.
  unfold sortable, notAfter, comparator, property. simpl. intros H.
  destruct (String.eqb key "id");
    [|destruct (String.eqb key "content");
      [|destruct (String.eqb key "author_id");
        [|destruct (String.eqb key "created_at");
          [|destruct (String.eqb key "updated_at"); [|discriminate]]]]];
    unfold precedes, comparison, ordered; destruct direction; lia.
Qed.

Lemma filtered_run (db : Database) (query base : Query)
  (input : GetRandomQuotesRequest) (q : Quote) :
  wheres base = [] ->
  wheres query = wheres (filtered base input) ->
  In q (runQuery rawMatches db query)
  <-> In q (quotes db)
      /\ lengthHolds (minLength input) GE q
      /\ lengthHolds (maxLength input) LE q
      /\ authorHolds db (author input) q
      /\ tagsHold db (tags_filter input) q
      /\ searchHolds rawMatches (query_text input) q.
Proof.
  forget_unused.
  intros B W.
  assert (Q : In q (runQuery rawMatches db query)
              <-> In q (runQuery rawMatches db (filtered base input)))
    by (unfold runQuery, matches; rewrite W; tauto).
  rewrite Q. unfold filtered.
  rewrite runQuery_queryContent, runQuery_filterTags, runQuery_filterAuthor,
    !runQuery_filterLength.
  unfold runQuery, matches. rewrite B. simpl. rewrite filter_In. tauto.
Qed.

(** C5, as the code has it: [getRandomQuotes] asks the database for at
    most [limit] rows in random order among the quotes that pass every
    filter given, and throws the error of the engine when it refuses
    that statement.  Otherwise it sorts the fetched rows in process memory
    with a callback whose descending comparison negates the ascending
    one: the result is a rearrangement of the fetched rows that the
    callback leaves in order.  It is sorted by the field in the direction
    asked when [sortBy] names a property holding a date, a string or a
    number; under any other [sortBy] the rows come back in the random
    order in which they were fetched.  Nothing is written. *)
Theorem getRandomQuotes_sample_then_sort (input : GetRandomQuotesRequest)
  (options : ReadOptions) (w : World) :
  consistentComparator localeCompare ->
  (forall n l, Permutation (rand n l) l) ->
  exists query fetched,
    wheres query = wheres (filtered (newQuery (read_transaction options)) input)
    /\ (forall q,
          In q (runQuery rawMatches (database w) query)
          <-> In q (quotes (database w))
              /\ lengthHolds (minLength input) GE q
              /\ lengthHolds (maxLength input) LE q
              /\ authorHolds (database w) (author input) q
              /\ tagsHold (database w) (tags_filter input) q
              /\ searchHolds rawMatches (query_text input) q)
    /\ fetched
       = firstn (limit input)
           (rand (seed w) (runQuery rawMatches (database w) query))
    /\ List.length fetched
       = Nat.min (limit input)
           (List.length (runQuery rawMatches (database w) query))
    /\ (forall q, In q fetched ->
                  In q (runQuery rawMatches (database w) query))
    /\ match fst (getRandomQuotes input options w) with
       | Return rows =>
           failure (SelectRandom query (limit input)) = None
           /\ rows
              = sort (comparator localeCompare (sortBy input) (order input))
                  fetched
           /\ Permutation rows fetched
           /\ StronglySorted
                (notAfter (comparator localeCompare (sortBy input) (order input)))
                rows
           /\ (sortable (sortBy input) = true ->
               sortedByField localeCompare (sortBy input) (order input) rows)
           /\ (sortable (sortBy input) = false -> rows = fetched)
       | Throw e => failure (SelectRandom query (limit input)) = Some e
       end
    /\ (forall a b,
          comparator localeCompare (sortBy input) DESC a b
          = - comparator localeCompare (sortBy input) ASC a b)
    /\ database (snd (getRandomQuotes input options w)) = database w.
Proof.
  forget_unused.
  intros C P. unfold getRandomQuotes, bind, selectRandom, ret.
  set (base := filtered (newQuery (read_transaction options)) input).
  set (query := if withDefault (read_withRelations options) true
                then withScopes base else base).
  assert (W : wheres query = wheres base)
    by (unfold query; destruct (withDefault _ _); reflexivity).
  set (found := runQuery rawMatches (database w) query).
  set (cmp := comparator localeCompare (sortBy input) (order input)).
  set (fetched := firstn (limit input) (rand (seed w) found)).
  assert (Sorted : StronglySorted (notAfter cmp) (sort cmp fetched)).
  { apply sort_sorted.
    - intros x y. apply comparator_total. exact C.
    - intros x y z. apply comparator_trans. exact C. }
  exists query, fetched.
  split; [exact W|].
  split; [intros q; apply (filtered_run (database w) query
                             (newQuery (read_transaction options)) input q);
          [reflexivity|exact W]|].
  split; [reflexivity|].
  split; [unfold fetched;
          rewrite length_firstn, (Permutation_length (P _ _)); reflexivity|].
  split.
  { intros q Hq. apply firstn_In in Hq.
    apply (Permutation_in _ (P _ _)) in Hq. exact Hq. }
  split; [|split; [reflexivity|]].
  - destruct (failure (SelectRandom query (limit input))) as [e|];
      cbn [fst]; [reflexivity|].
    fold found. fold fetched. fold cmp.
    split; [reflexivity|]. split; [reflexivity|].
    split; [apply sort_Permutation|]. split; [exact Sorted|]. split.
    + intros K. unfold sortedByField.
      apply (StronglySorted_weaken (notAfter cmp)); [|exact Sorted].
      intros a b H. apply comparator_sortable; assumption.
    + intros K. apply sort_all_equal. intros a b.
      apply comparator_unsortable. exact K.
  - destruct (failure (SelectRandom query (limit input))); reflexivity.
Qed.

(** X21: when [sortBy] names none of the properties of a quote that
    hold a date, a string or a number, every comparison is 0 and the sort
    moves nothing: [getRandomQuotes] either throws the error with which
    the engine refuses the select, or returns the rows in the random
    order in which they were fetched, for either direction. *)
Theorem getRandomQuotes_unknown_sortBy (input : GetRandomQuotesRequest)
  (options : ReadOptions) (w : World) :
  sortBy input <> "id" -> sortBy input <> "content" ->
  sortBy input <> "author_id" -> sortBy input <> "created_at" ->
  sortBy input <> "updated_at" ->
  exists query,
    wheres query = wheres (filtered (newQuery (read_transaction options)) input)
    /\ match fst (getRandomQuotes input options w) with
       | Return rows =>
           failure (SelectRandom query (limit input)) = None
           /\ rows
              = firstn (limit input)
                  (rand (seed w) (runQuery rawMatches (database w) query))
       | Throw e => failure (SelectRandom query (limit input)) = Some e
       end.
Proof.
  forget_unused.
  intros H1 H2 H3 H4 H5.
  apply String.eqb_neq in H1, H2, H3, H4, H5.
  unfold getRandomQuotes, bind, selectRandom, ret.
  set (base := filtered (newQuery (read_transaction options)) input).
  exists (if withDefault (read_withRelations options) true
          then withScopes base else base).
  split; [destruct (withDefault _ _); reflexivity|].
  destruct (failure _) as [e|]; cbn [fst]; [reflexivity|].
  split; [reflexivity|]. apply sort_all_equal.
  intros a b. apply comparator_unsortable.
  unfold sortable. simpl. rewrite H1, H2, H3, H4, H5. reflexivity.
Qed.

(** X22: [getRandomQuote] never writes, and it throws only the error
    with which the engine refuses the select.  Otherwise it returns null
    exactly when no stored quote passes all the filters given, and else
    a stored quote that passes every one of them. *)
Theorem getRandomQuote_result (input : GetRandomQuoteRequest)
  (options : ReadOptions) (w : World) :
  (forall n l, Permutation (rand n l) l) ->
  let passes q :=
    In q (quotes (database w))
    /\ lengthHolds (one_minLength input) GE q
    /\ lengthHolds (one_maxLength input) LE q
    /\ authorHolds (database w) (one_author input) q
    /\ tagsHold (database w) (one_tags input) q
    /\ searchHolds rawMatches (one_query input) q in
  (exists query,
     (forall q, In q (runQuery rawMatches (database w) query) <-> passes q)
     /\ match fst (getRandomQuote input options w) with
        | Return (Some q) =>
            failure (SelectRandom query 1) = None /\ passes q
        | Return None =>
            failure (SelectRandom query 1) = None /\ forall q, ~ passes q
        | Throw e => failure (SelectRandom query 1) = Some e
        end)
  /\ database (snd (getRandomQuote input options w)) = database w.
Proof.
  forget_unused.
  intros P passes. unfold getRandomQuote, bind, selectRandom, ret.
  set (base :=
         queryContent
           (filterTags
              (filterAuthor
                 (filterLength
                    (filterLength (newQuery (read_transaction options))
                       (one_minLength input) GE)
                    (one_maxLength input) LE)
                 (one_author input))
              (one_tags input))
           (one_query input)).
  set (query := if withDefault (read_withRelations options) true
                then withScopes base else base).
  assert (W : wheres query = (wheres (newQuery (read_transaction options))
                              ++ wheres base)%list)
    by (unfold query; destruct (withDefault _ _); reflexivity).
  assert (M : forall q, In q (runQuery rawMatches (database w) query)
                        <-> passes q).
  { intros q. unfold passes.
    assert (Q : In q (runQuery rawMatches (database w) query)
                <-> In q (runQuery rawMatches (database w) base)).
    { unfold runQuery, matches. rewrite W. simpl. tauto. }
    rewrite Q. unfold base.
    rewrite runQuery_queryContent, runQuery_filterTags, runQuery_filterAuthor,
      !runQuery_filterLength.
    unfold runQuery, matches. simpl. rewrite filter_In. tauto. }
  split; [|destruct (failure (SelectRandom query 1)); reflexivity].
  exists query. split; [exact M|].
  destruct (failure (SelectRandom query 1)) as [e|]; cbn [fst];
    [reflexivity|].
  pose proof (P (seed w) (runQuery rawMatches (database w) query)) as Perm.
  destruct (rand (seed w) (runQuery rawMatches (database w) query))
    as [|x l] eqn:E; simpl.
  - split; [reflexivity|].
    apply Permutation_nil in Perm. intros q Hq. apply M in Hq.
    rewrite Perm in Hq. destruct Hq.
  - split; [reflexivity|].
    apply M. apply (Permutation_in _ Perm). left. reflexivity.
Qed.

(** ** The migration *)

Lemma hasTable_filter_out (schema : Schema) (name : string) :
  hasTable schema name = false ->
  filter (fun t => negb (String.eqb (table_name t) name)) schema = schema.
Proof.
  forget_unused.
  intros H. apply filter_all. intros t Ht.
  destruct (String.eqb (table_name t) name) eqn:E; [|reflexivity].
  assert (T : hasTable schema name = true)
    by (apply existsb_exists; exists t; auto).
  congruence.
Qed.

Lemma hasTable_created (schema : Schema) (name : string)
  (columns : list Column) :
  hasTable (schema ++ [mkTable name columns])%list name = true.
Proof.
  forget_unused.
  unfold hasTable. rewrite existsb_app. apply orb_true_iff. right.
  simpl. rewrite String.eqb_refl. reflexivity.
Qed.

(** X25: the migration is reversible: on a schema without a tags table
    [up] adds that table and keeps every other one, and [down] after it
    gives back the schema it started from; [up] on a schema that has the
    table and [down] on one that has not are refused. *)
Theorem up_down_round_trip (schema : Schema) :
  hasTable schema tableName = false ->
  exists created,
    up schema = Return created
    /\ hasTable created tableName = true
    /\ (forall t, In t schema -> In t created)
    /\ down created = Return schema
    /\ (exists e, up created = Throw e)
    /\ (exists e, down schema = Throw e).
Proof.
  forget_unused.
  intros H. unfold up, down, createTable, dropTable. rewrite H.
  eexists. split; [reflexivity|].
  rewrite !hasTable_created.
  split; [reflexivity|].
  split; [intros t Ht; apply in_or_app; left; exact Ht|].
  split; [|split; eexists; reflexivity].
  rewrite filter_app, (hasTable_filter_out _ _ H). simpl.
  rewrite app_nil_r. reflexivity.
Qed.

End Repository.

(** ** The code-unit collation is consistent *)

Lemma ascii_compare_N (a b : ascii) :
  Ascii.compare a b = N.compare (N_of_ascii a) (N_of_ascii b).
Proof. reflexivity. Qed.

Lemma string_compare_trans (x y z : string) :
  String.compare x y <> Gt -> String.compare y z <> Gt ->
  String.compare x z <> Gt.
Proof.
  revert y z. induction x as [|a x IH]; intros [|b y] [|c z]; simpl;
    try congruence.
  rewrite !ascii_compare_N.
  destruct (N.compare_spec (N_of_ascii a) (N_of_ascii b)) as [E1|L1|G1];
    destruct (N.compare_spec (N_of_ascii b) (N_of_ascii c)) as [E2|L2|G2];
    destruct (N.compare_spec (N_of_ascii a) (N_of_ascii c)) as [E3|L3|G3];
    try congruence; try lia.
  apply IH.
Qed.

Lemma codeUnitCompare_consistent : consistentComparator codeUnitCompare.
Proof.
  split.
  - intros x y. unfold codeUnitCompare. rewrite (String.compare_antisym y x).
    destruct (String.compare x y); reflexivity.
  - intros x y z. unfold codeUnitCompare.
    pose proof (string_compare_trans x y z) as T.
    destruct (String.compare x y), (String.compare y z),
      (String.compare x z); try lia; exfalso; apply T; congruence.
Qed.

(** ** The operations at work on the sample database *)

Example split_examples :
  split "a,b" "," = ["a"; "b"]
  /\ split "a|b" "|" = ["a"; "b"]
  /\ split "" "," = [""]
  /\ split ",a," "," = [""; "a"; ""].
Proof. repeat split. Qed.

Example keywords_examples :
  keywordsOf "hello  world" = "hello*,world*"
  /\ keywordsOf "to be;or,not" = "to*,be*,or*,not*"
  /\ keywordsOf " a " = "*,a*,*"
  /\ keywordsOf "" = "*".
Proof. repeat split. Qed.

Example tags_examples :
  map id (runQuery Sample.anyRaw Sample.db
            (filterTags Sample.emptyQuery (Val "a,b"))) = [1]
  /\ map id (runQuery Sample.anyRaw Sample.db
               (filterTags Sample.emptyQuery (Val "a|b"))) = [1; 2]
  /\ map id (runQuery Sample.anyRaw Sample.db
               (filterTags Sample.emptyQuery (Val "a,b|c"))) = [3].
Proof. repeat split. Qed.

Example length_example :
  map id (runQuery Sample.anyRaw Sample.db
            (filterLength (filterLength Sample.emptyQuery (Val 5) GE)
               (Val 9) LE)) = [1; 2; 3]
  /\ map id (runQuery Sample.anyRaw Sample.db
               (filterLength (filterLength Sample.emptyQuery (Val 6) GE)
                  (Val 9) LE)) = [2]
  /\ map id (runQuery Sample.anyRaw Sample.db
               (filterLength (filterLength Sample.emptyQuery (Val 5) GE)
                  (Val 8) LE)) = [1; 3].
Proof. repeat split. Qed.

Example handle_commits :
  fst (handle Sample.anyRaw Sample.noFailure 1 Sample.world)
  = Return (Some Sample.q1)
  /\ map id (quotes (database
                       (snd (handle Sample.anyRaw Sample.noFailure 1
                               Sample.world)))) = [2; 3]
  /\ quote_tag (database
                  (snd (handle Sample.anyRaw Sample.noFailure 1 Sample.world)))
     = [(2, 1); (3, 3)]
  /\ pending (snd (handle Sample.anyRaw Sample.noFailure 1 Sample.world))
     = [DeferredCommit]
  /\ savepoint
       (settle Sample.noFailure
          (snd (handle Sample.anyRaw Sample.noFailure 1 Sample.world)))
     = None.
Proof. repeat split. Qed.

Example handle_rolls_back :
  fst (handle Sample.anyRaw Sample.detachFails 1 Sample.world)
  = Throw (DatabaseError "lock wait timeout")
  /\ map id (quotes (database
                       (snd (handle Sample.anyRaw Sample.detachFails 1
                               Sample.world)))) = [2; 3]
  /\ pending (snd (handle Sample.anyRaw Sample.detachFails 1 Sample.world))
     = [DeferredRollback]
  /\ database
       (settle Sample.detachFails
          (snd (handle Sample.anyRaw Sample.detachFails 1 Sample.world)))
     = Sample.db.
Proof. repeat split. Qed.

Example random_quotes_example :
  map id
    (match fst (getRandomQuotes Sample.anyRaw Sample.noFailure Sample.reversed
                  codeUnitCompare (Sample.request "content" DESC 2)
                  (mkReadOptions None None) Sample.world) with
     | Return rows => rows
     | Throw _ => []
     end) = [3; 2]
  /\ fst (getRandomQuotes Sample.anyRaw Fixture.refuseRandom Sample.reversed
            codeUnitCompare (Sample.request "content" DESC 2)
            (mkReadOptions None None) Sample.world)
     = Throw (DatabaseError "syntax error in statement").
Proof. split; reflexivity. Qed.

(** ** Instances of the conditional properties *)

Lemma filterTags_pipe_precedence_witness :
  includes "a,b|c" "|" = true
  /\ filterTags Sample.emptyQuery (Val "a,b|c")
     = addWhere Sample.emptyQuery
         (WhereHas "tags" [SubOrWhere "name" "a,b"; SubOrWhere "name" "c"]).
Proof.
  split; [reflexivity|].
  exact (proj1 (filterTags_pipe_precedence Sample.anyRaw Sample.db
                  Sample.emptyQuery "a,b|c" Sample.q1 eq_refl)).
Defined.

Lemma handle_rollback_not_awaited_witness :
  exists w',
    handle Sample.anyRaw Sample.detachFails 1 Sample.world
    = (Throw (DatabaseError "lock wait timeout"), w')
    /\ pending w' = [DeferredRollback]
    /\ savepoint w' = Some Sample.db
    /\ stored (database w') 1 = None
    /\ stored Sample.db 1 = Some Sample.q1.
Proof.
  destruct (handle_rollback_not_awaited Sample.anyRaw Sample.detachFails 1
              Sample.world (DatabaseError "lock wait timeout") eq_refl
              (ex_intro _ Sample.q1 (conj (or_introl eq_refl) eq_refl))
              eq_refl eq_refl)
    as [query [w' [E [_ [_ [P [O [_ [S _]]]]]]]]].
  exists w'. split; [exact E|]. split; [exact P|]. split; [exact O|].
  split; [exact S|reflexivity].
Defined.

Lemma sample_no_quote_99 :
  forall q, In q (quotes (database Sample.world)) -> id q <> 99.
Proof.
  intros q [<-|[<-|[<-|[]]]]; discriminate.
Defined.

Lemma getById_findOrFail_witness :
  fst (getById Sample.anyRaw 99 (mkGetByIdOptions None None None) Sample.world)
  = Throw E_ROW_NOT_FOUND
  /\ fst (getById Sample.anyRaw 99 (mkGetByIdOptions None (Some false) None)
            Sample.world)
     = Return None.
Proof.
  split.
  - apply (getById_findOrFail Sample.anyRaw 99
             (mkGetByIdOptions None None None) Sample.world
             sample_no_quote_99).
    left. reflexivity.
  - apply (getById_findOrFail Sample.anyRaw 99
             (mkGetByIdOptions None (Some false) None) Sample.world
             sample_no_quote_99).
    reflexivity.
Defined.

Lemma update_delete_missing_id_witness :
  fst (update Sample.anyRaw 99
         (mkUpdateQuoteRequest (Val "new")) (mkWriteOptions None) Sample.world)
  = Throw E_ROW_NOT_FOUND
  /\ fst (delete Sample.anyRaw Sample.noFailure 99 (mkWriteOptions None)
            Sample.world)
     = Throw E_ROW_NOT_FOUND.
Proof.
  pose proof (update_delete_missing_id Sample.anyRaw Sample.noFailure 99
                (mkUpdateQuoteRequest (Val "new")) (mkWriteOptions None)
                Sample.world sample_no_quote_99) as [U [D _]].
  split; assumption.
Defined.

(** C2 as the specification words it fails: no quote of the sample has
    id 99, and neither [update] nor [delete] returns null for it; both
    throw the not-found error. *)
Lemma update_delete_missing_id_counterexample :
  (forall q, In q (quotes (database Sample.world)) -> id q <> 99)
  /\ fst (update Sample.anyRaw 99
            (mkUpdateQuoteRequest (Val "new")) (mkWriteOptions None)
            Sample.world)
     <> Return None
  /\ fst (delete Sample.anyRaw Sample.noFailure 99 (mkWriteOptions None)
            Sample.world)
     <> Return None.
Proof.
  split; [|split; vm_compute; discriminate].
  intros q [<-|[<-|[<-|[]]]]; discriminate.
Qed.



Lemma createMultiple_returns_inserted_witness :
  exists rows w',
    createMultiple Sample.anyRaw Sample.noFailure
      [mkNewQuote "delta" 10; mkNewQuote "epsilon" 11]
      (mkWriteOptions (Some 7%nat)) Sample.world
    = (Return rows, w')
    /\ List.length rows = 2%nat.
Proof.
  destruct (createMultiple_returns_inserted Sample.anyRaw Sample.noFailure
              [mkNewQuote "delta" 10; mkNewQuote "epsilon" 11]
              (mkWriteOptions (Some 7%nat)) Sample.world)
    as [rows [w' [E [_ [_ [L _]]]]]].
  - intros r q [<-|[<-|[]]] [<-|[<-|[<-|[]]]]; discriminate.
  - reflexivity.
  - exists rows, w'. split; assumption.
Defined.

Lemma getRandomQuotes_sample_then_sort_witness :
  fst (getRandomQuotes Sample.anyRaw Sample.noFailure Sample.reversed
         codeUnitCompare (Sample.request "content" DESC 2)
         (mkReadOptions None None) Sample.world)
  = Return [Sample.q3; Sample.q2]
  /\ sortedByField codeUnitCompare "content" DESC [Sample.q3; Sample.q2].
Proof.
  assert (E : fst (getRandomQuotes Sample.anyRaw Sample.noFailure
                     Sample.reversed codeUnitCompare
                     (Sample.request "content" DESC 2)
                     (mkReadOptions None None) Sample.world)
              = Return [Sample.q3; Sample.q2]) by reflexivity.
  split; [exact E|].
  destruct (getRandomQuotes_sample_then_sort Sample.anyRaw Sample.noFailure
              Sample.reversed codeUnitCompare
              (Sample.request "content" DESC 2)
              (mkReadOptions None None) Sample.world
              codeUnitCompare_consistent
              (fun _ l => Permutation_sym (Permutation_rev l)))
    as [query [fetched [_ [_ [_ [_ [_ [R _]]]]]]]].
  rewrite E in R. destruct R as [_ [_ [_ [_ [Sd _]]]]].
  exact (Sd eq_refl).
Defined.

(** C5 as the specification words it fails: under the sort key "tags",
    which names no date, string or number of a quote, the three quotes of
    the sample come back in the order of the draw, whichever direction is
    asked: one draw gives them by ascending id and another by descending
    id, for the same request.  The random draw decides the order, and the
    list is not sorted by the field asked for. *)
Lemma getRandomQuotes_sample_then_sort_counterexample :
  let ask order draw :=
    fst (getRandomQuotes Sample.anyRaw Sample.noFailure draw codeUnitCompare
           (Sample.request "tags" order 3) (mkReadOptions None None)
           Sample.world) in
  ask ASC Fixture.asStored = Return [Sample.q1; Sample.q2; Sample.q3]
  /\ ask DESC Fixture.asStored = Return [Sample.q1; Sample.q2; Sample.q3]
  /\ ask ASC Sample.reversed = Return [Sample.q3; Sample.q2; Sample.q1]
  /\ ask DESC Sample.reversed = Return [Sample.q3; Sample.q2; Sample.q1]
  /\ ~ sortedByField codeUnitCompare "tags" ASC
         [Sample.q1; Sample.q2; Sample.q3]
  /\ ~ sortedByField codeUnitCompare "tags" DESC
         [Sample.q3; Sample.q2; Sample.q1].
Proof.
  repeat (split; [reflexivity|]).
  split; intros H; inversion H as [|a l _ F]; subst;
    inversion F as [|b m P _]; exact P.
Qed.

(** ** Instances of the further properties *)

Lemma sample_unique_ids : NoDup (map id (quotes (database Sample.world))).
Proof.
  simpl. repeat constructor; simpl; intuition discriminate.
Defined.

Lemma sample_wellKeyed : wellKeyed Sample.world.
Proof.
  split; [exact sample_unique_ids|].
  intros q [<-|[<-|[<-|[]]]]; reflexivity.
Defined.

Lemma sample_quote_1 :
  exists q, In q (quotes (database Sample.world)) /\ id q = 1.
Proof. exists Sample.q1. split; [left; reflexivity|reflexivity]. Defined.

Lemma filterTags_order_irrelevant_witness :
  runQuery Sample.anyRaw Sample.db (filterTags Sample.emptyQuery (Val "a,b"))
  = runQuery Sample.anyRaw Sample.db
      (filterTags Sample.emptyQuery (Val "b,a,a")).
Proof.
  apply (filterTags_order_irrelevant Sample.anyRaw Sample.db Sample.emptyQuery
           "a,b" "b,a,a" eq_refl).
  intros name. unfold tagNames. simpl. tauto.
Defined.

Lemma filterTags_all_within_any_witness :
  In Sample.q1
    (runQuery Sample.anyRaw Sample.db
       (filterTags Sample.emptyQuery (Val "a|b"))).
Proof.
  apply (filterTags_all_within_any Sample.anyRaw Sample.db Sample.emptyQuery
           "a,b" "a|b" Sample.q1 eq_refl eq_refl eq_refl).
  left. reflexivity.
Defined.

Lemma filterTags_empty_piece_witness :
  includes "a" "|" = false
  /\ (In Sample.q1
        (runQuery Sample.anyRaw Sample.db
           (filterTags Sample.emptyQuery (Val "a,")))
      -> hasTag Sample.db Sample.q1 "").
Proof.
  split; [reflexivity|]. intros H.
  apply (proj1 (filterTags_empty_piece Sample.anyRaw Sample.db
                  Sample.emptyQuery "a" Sample.q1 eq_refl)) in H.
  exact (proj2 H).
Defined.

Lemma filterLength_crossed_bounds_witness :
  runQuery Sample.anyRaw Sample.db
    (filterLength (filterLength Sample.emptyQuery (Val 9) GE) (Val 5) LE) = [].
Proof.
  apply (filterLength_crossed_bounds Sample.anyRaw Sample.db Sample.emptyQuery
           9 5).
  reflexivity.
Defined.


Lemma getById_returns_the_quote_witness :
  fst (getById Sample.anyRaw 2 (mkGetByIdOptions (Some false) (Some false) None)
         Sample.world)
  = Return (Some Sample.q2).
Proof.
  exact (proj1 (getById_returns_the_quote Sample.anyRaw Sample.q2
                  (mkGetByIdOptions (Some false) (Some false) None)
                  Sample.world sample_unique_ids
                  (or_intror (or_introl eq_refl)))).
Defined.

Lemma getByIds_rows_witness :
  exists rows,
    fst (getByIds Sample.anyRaw [2; 9; 2] (mkReadOptions None None)
           Sample.world)
    = Return rows
    /\ (List.length rows <= 3)%nat.
Proof.
  destruct (getByIds_rows Sample.anyRaw [2; 9; 2] (mkReadOptions None None)
              Sample.world sample_unique_ids)
    as [rows [E [_ [_ [L _]]]]].
  exists rows. split; [exact E|exact L].
Defined.

Lemma createMultiple_returns_all_with_contents_witness :
  exists rows w',
    createMultiple Sample.anyRaw Sample.noFailure
      [mkNewQuote "alpha" 11] (mkWriteOptions None) Sample.world
    = (Return rows, w')
    /\ List.length rows = 2%nat.
Proof.
  destruct (createMultiple_returns_all_with_contents Sample.anyRaw
              Sample.noFailure [mkNewQuote "alpha" 11] (mkWriteOptions None)
              None Sample.world eq_refl)
    as [rows [w' [E [R _]]]].
  exists rows, w'. split; [exact E|]. rewrite R. reflexivity.
Defined.

Lemma createMultiple_insert_refused_witness :
  exists w',
    createMultiple Sample.anyRaw Fixture.refuseInsert
      [mkNewQuote "delta" 10] (mkWriteOptions None) Sample.world
    = (Throw (DatabaseError "connection lost"), w')
    /\ database w' = Sample.db.
Proof.
  destruct (createMultiple_insert_refused Sample.anyRaw Fixture.refuseInsert
              [mkNewQuote "delta" 10] (mkWriteOptions None) Sample.world
              (DatabaseError "connection lost") eq_refl)
    as [w' [E [D _]]].
  exists w'. split; [exact E|exact D].
Defined.

Lemma create_then_getById_witness :
  exists q w',
    create Sample.noFailure (mkNewQuote "delta" 10) (mkWriteOptions None)
      Sample.world
    = (Return q, w')
    /\ fst (getById Sample.anyRaw (id q) (mkGetByIdOptions None None None) w')
       = Return (Some q).
Proof.
  destruct (create_then_getById Sample.anyRaw Sample.noFailure
              (mkNewQuote "delta" 10) (mkWriteOptions None)
              (mkGetByIdOptions None None None) Sample.world
              sample_wellKeyed eq_refl)
    as [q [w' [E [_ [_ [_ [G _]]]]]]].
  exists q, w'. split; [exact E|exact G].
Defined.

Lemma delete_removes_only_the_quote_witness :
  exists q w',
    delete Sample.anyRaw Sample.noFailure 1 (mkWriteOptions None) Sample.world
    = (Return (Some q), w')
    /\ quote_tag (database w') = [(1, 1); (1, 2); (2, 1); (3, 3)].
Proof.
  destruct (delete_removes_only_the_quote Sample.anyRaw Sample.noFailure 1
              (mkWriteOptions None) Sample.world sample_quote_1 eq_refl)
    as [q [w' [E [_ [_ [_ [_ [T _]]]]]]]].
  exists q, w'. split; [exact E|exact T].
Defined.

Lemma delete_refused_witness :
  fst (delete Sample.anyRaw Fixture.refuseDelete 1 (mkWriteOptions None)
         Sample.world)
  = Throw (DatabaseError "connection lost").
Proof.
  exact (proj1 (delete_refused Sample.anyRaw Fixture.refuseDelete 1
                  (mkWriteOptions None) Sample.world
                  (DatabaseError "connection lost") sample_quote_1 eq_refl)).
Defined.

Lemma handle_missing_id_witness :
  exists w',
    handle Sample.anyRaw Sample.noFailure 99 Sample.world
    = (Throw E_ROW_NOT_FOUND, w')
    /\ database w' = Sample.db.
Proof.
  destruct (handle_missing_id Sample.anyRaw Sample.noFailure 99 Sample.world
              eq_refl sample_no_quote_99)
    as [query [w' [E [_ [_ D]]]]].
  exists w'. split; [exact E|exact D].
Defined.

Lemma handle_keeps_the_rest_witness :
  exists q w',
    handle Sample.anyRaw Sample.noFailure 1 Sample.world = (Return (Some q), w')
    /\ pending w' = [DeferredCommit]
    /\ relatedTags (database (settle Sample.noFailure w')) Sample.q2
       = relatedTags Sample.db Sample.q2.
Proof.
  destruct (handle_keeps_the_rest Sample.anyRaw Sample.noFailure 1 Sample.world
              eq_refl eq_refl sample_quote_1 eq_refl eq_refl)
    as [q [w' [E [_ [P [_ [_ [_ [_ [R _]]]]]]]]]].
  exists q, w'. split; [exact E|]. split; [exact P|]. apply R. discriminate.
Defined.

Lemma handle_twice_witness :
  exists q w',
    handle Sample.anyRaw Sample.noFailure 1 Sample.world = (Return (Some q), w')
    /\ fst (handle Sample.anyRaw Sample.noFailure 1
              (settle Sample.noFailure w'))
       = Throw E_ROW_NOT_FOUND.
Proof.
  destruct (handle_twice Sample.anyRaw Sample.noFailure 1 Sample.world
              eq_refl eq_refl sample_quote_1 eq_refl eq_refl)
    as [q [w' [E [T _]]]].
  exists q, w'. split; [exact E|exact T].
Defined.

Lemma update_save_refused_witness :
  exists q',
    fst (update Sample.anyRaw 2
           (mkUpdateQuoteRequest (Val "new")) (mkWriteOptions None)
           Sample.world)
    = Return (Some q')
    /\ database
         (snd (update Sample.anyRaw 2
                 (mkUpdateQuoteRequest (Val "new")) (mkWriteOptions None)
                 Sample.world))
       = Sample.db.
Proof.
  destruct (update_save_refused Sample.anyRaw Fixture.refuseSave 2
              (mkUpdateQuoteRequest (Val "new")) (mkWriteOptions None)
              Sample.world
              (ex_intro _ Sample.q2
                 (conj (or_intror (or_introl eq_refl)) eq_refl)))
    as [q [q' [_ [_ [E [_ [D _]]]]]]].
  - intros row. discriminate.
  - exists q'. split; [exact E|exact D].
Defined.

Lemma update_without_content_witness :
  database
    (snd (update Sample.anyRaw 2 (mkUpdateQuoteRequest Null)
            (mkWriteOptions None) Sample.world))
  = Sample.db.
Proof.
  exact (proj1 (proj2 (update_without_content Sample.anyRaw Sample.noFailure
                         Sample.q2 (mkUpdateQuoteRequest Null)
                         (mkWriteOptions None) Sample.world sample_unique_ids
                         (or_intror (or_introl eq_refl)) (or_intror eq_refl)))).
Defined.

Lemma writes_keep_keys_witness :
  wellKeyed
    (snd (createMultiple Sample.anyRaw Sample.noFailure
            [mkNewQuote "delta" 10; mkNewQuote "delta" 11]
            (mkWriteOptions None) Sample.world)).
Proof.
  exact (proj1 (writes_keep_keys Sample.anyRaw Sample.noFailure
                  [mkNewQuote "delta" 10; mkNewQuote "delta" 11] 1
                  (mkUpdateQuoteRequest Null) (mkWriteOptions None)
                  Sample.world sample_wellKeyed)).
Defined.

Lemma getRandomQuotes_unknown_sortBy_witness :
  fst (getRandomQuotes Sample.anyRaw Sample.noFailure Sample.reversed
         codeUnitCompare (Sample.request "author" DESC 2)
         (mkReadOptions None None) Sample.world)
  = Return [Sample.q3; Sample.q2]
  /\ exists query,
       firstn 2
         (Sample.reversed 0%nat (runQuery Sample.anyRaw Sample.db query))
       = [Sample.q3; Sample.q2].
Proof.
  assert (E : fst (getRandomQuotes Sample.anyRaw Sample.noFailure
                     Sample.reversed codeUnitCompare
                     (Sample.request "author" DESC 2)
                     (mkReadOptions None None) Sample.world)
              = Return [Sample.q3; Sample.q2]) by reflexivity.
  split; [exact E|].
  destruct (getRandomQuotes_unknown_sortBy Sample.anyRaw Sample.noFailure
              Sample.reversed codeUnitCompare (Sample.request "author" DESC 2)
              (mkReadOptions None None) Sample.world)
    as [query [_ R]]; try discriminate.
  rewrite E in R. destruct R as [_ R].
  exists query. symmetry. exact R.
Defined.

Lemma getRandomQuote_result_witness :
  fst (getRandomQuote Sample.anyRaw Sample.noFailure Sample.reversed
         Fixture.oneQuote (mkReadOptions None None) Sample.world)
  = Return (Some Sample.q2)
  /\ hasAuthor Sample.db Sample.q2 "ann".
Proof.
  assert (E : fst (getRandomQuote Sample.anyRaw Sample.noFailure
                     Sample.reversed Fixture.oneQuote
                     (mkReadOptions None None) Sample.world)
              = Return (Some Sample.q2)) by reflexivity.
  split; [exact E|].
  destruct (proj1 (getRandomQuote_result Sample.anyRaw Sample.noFailure
                     Sample.reversed Fixture.oneQuote (mkReadOptions None None)
                     Sample.world
                     (fun _ l => Permutation_sym (Permutation_rev l))))
    as [query [_ R]].
  rewrite E in R. destruct R as [_ [_ [_ [_ [A _]]]]]. exact A.
Defined.

Lemma up_down_round_trip_witness :
  exists created,
    up [Fixture.quotesTable] = Return created
    /\ down created = Return [Fixture.quotesTable].
Proof.
  destruct (up_down_round_trip [Fixture.quotesTable] eq_refl)
    as [created [U [_ [_ [D _]]]]].
  exists created. split; [exact U|exact D].
Defined.
